(** * Loss kernels of [thinc/loss.py]: a shallow embedding

    The kernels ([CategoricalCrossentropy], [SequenceCategoricalCrossentropy],
    [L2Distance], [CosineDistance]) and the helper [_make_mask] are embedded
    as functions over dense tensors.

    Conventions of the embedding.
    - Tensor entries are real numbers: the backend's float arithmetic is
      idealised, so rounding, overflow, [nan] and [inf] are outside the model.
      A quotient whose divisor is zero (which the backend answers with [nan]
      or [inf], without raising) has no meaningful value here; statements
      about the value of a quotient say when its divisor is non-zero.
    - A [Floats2d] is a column count and a list of rows; a well-formed one
      ([wf]) has all rows of that length, as every backend array has.
    - A Python exception is a value of [exn]; a method of a kernel object is
      a function from the object to the object after the call and either the
      exception raised or the value returned. *)

From Stdlib Require Import Reals Lra ZArith String List.
From stdpp Require Import base gmap strings list.

Open Scope R_scope.

#[global] Instance R_eq_dec : EqDecision R := Req_dec_T.

(** ** Exceptions *)

(** The messages of the [ValueError]s raised in [loss.py], and one for the
    backend's refusal to broadcast. *)
Inductive message : Type :=
  | msg_no_names
  | msg_cce_shapes (guesses_shape target_shape : nat * nat)
  | msg_guesses_interval
  | msg_truths_interval
  | msg_seq_length
  | msg_l2_shapes (guesses_shape truths_shape : nat * nat)
  | msg_cosine_shapes (guesses_shape truths_shape : nat * nat)
  | msg_broadcast.

Inductive exn : Type :=
  | ValueError (m : message)
  | KeyError (key : string)
  | IndexError (index : Z)
  | IndexError_not_integers
  | TypeError.

Definition result (A : Type) : Type := exn + A.

Definition is_ValueError (e : exn) : bool :=
  match e with ValueError _ => true | _ => false end.

(** ** Methods: state passing over the kernel object, with exceptions *)

Definition method (Self A : Type) : Type := Self → Self * result A.

Definition ret {Self A} (a : A) : method Self A := λ self, (self, inr a).

Definition raise {Self A} (e : exn) : method Self A := λ self, (self, inl e).

Definition bind {Self A B} (m : method Self A) (k : A → method Self B)
  : method Self B :=
  λ self, match m self with
          | (self', inr a) => k a self'
          | (self', inl e) => (self', inl e)
          end.

(** Reading an attribute [self.f]. *)
Definition attr {Self A} (f : Self → A) : method Self A :=
  λ self, (self, inr (f self)).

(** Calling a module-level function, which has no [self]. *)
Definition call {Self A} (r : result A) : method Self A := λ self, (self, r).

(** Calling a method of the object held in an attribute, [self.f.m(...)]. *)
Definition on_attr {Self Inner A} (get : Self → Inner) (set : Inner → Self → Self)
    (m : method Inner A) : method Self A :=
  λ self, let '(inner, r) := m (get self) in (set inner self, r).

Declare Scope method_scope.
Delimit Scope method_scope with method.
Notation "x <- m ;; k" := (bind m (λ x, k))
  (at level 100, m at next level, right associativity) : method_scope.
Notation "'check' b 'else_raise' e ;; k" := (if b then k else raise e)
  (at level 100, b at next level, e at next level, right associativity) : method_scope.

(** The value a method returns, or the exception it raises. *)
Definition outcome {Self A} (m : method Self A) (self : Self) : result A := snd (m self).

(** The object after the call. *)
Definition after {Self A} (m : method Self A) (self : Self) : Self := fst (m self).

(** ** Tensors *)

Record Floats2d : Type := mk_Floats2d { ncols : nat; rows : list (list R) }.

Abbreviation Ints1d := (list Z) (only parsing).

Definition nrows (t : Floats2d) : nat := length (rows t).

Definition shape (t : Floats2d) : nat * nat := (nrows t, ncols t).

Definition wf (t : Floats2d) : Prop := Forall (λ r, length r = ncols t) (rows t).

(** [t.sum()] of a list of entries and of a whole tensor. *)
Definition sum (l : list R) : R := foldr Rplus 0 l.

Definition total (t : Floats2d) : R := sum (sum <$> rows t).

(** Elementwise operations; [zip2d] is used on operands of one shape. *)
Definition map2d (f : R → R) (t : Floats2d) : Floats2d :=
  mk_Floats2d (ncols t) ((λ r : list R, f <$> r) <$> rows t).

Definition zip2d (f : R → R → R) (a b : Floats2d) : Floats2d :=
  mk_Floats2d (ncols a) (zip_with (zip_with f) (rows a) (rows b)).

Definition full (s : nat * nat) (x : R) : Floats2d :=
  mk_Floats2d (snd s) (replicate (fst s) (replicate (snd s) x)).

(** [t.any()]: whether some entry is non-zero. *)
Definition any (t : Floats2d) : bool :=
  existsb (existsb (λ x, negb (bool_decide (x = 0)))) (rows t).

(** A Python [bool] compared with an [int]: [True] is 1, [False] is 0. *)
Definition bool_gt (b : bool) (z : Z) : bool := (Z.b2z b >? z)%Z.
Definition bool_lt (b : bool) (z : Z) : bool := (Z.b2z b <? z)%Z.

(** Broadcasting of a two-dimensional operand to the shape of the array an
    in-place operation writes to: an axis of length one is stretched, any
    other mismatch is refused by the backend with a [ValueError]. *)
Definition stretch {A} (n : nat) (l : list A) : list A :=
  match l with
  | [x] => replicate n x
  | _ => l
  end.

Definition broadcast_to (t : Floats2d) (s : nat * nat) : result Floats2d :=
  if ((nrows t =? fst s)%nat || (nrows t =? 1)%nat)
     && ((ncols t =? snd s)%nat || (ncols t =? 1)%nat)
  then inr (mk_Floats2d (snd s) (stretch (snd s) <$> stretch (fst s) (rows t)))
  else inl (ValueError msg_broadcast).

(** [a *= b]. *)
Definition imul (a b : Floats2d) : result Floats2d :=
  match broadcast_to b (shape a) with
  | inr b' => inr (zip2d Rmult a b')
  | inl e => inl e
  end.

(** [t / n] for the batch size [n = guesses.shape[0]]. *)
Definition div_batch (t : Floats2d) (n : nat) : Floats2d :=
  map2d (λ x, x / INR n) t.

(** ** [_make_mask] *)

(** The [missing] argument, [IntsOrFloats = Union[Ints1d, Floats2d]], by
    its dtype: [MissingFloats] is a tensor of dtype ["f"] (float32), the one
    dtype of which [missing.dtype == "f"] holds; [MissingFloatsOther] is a
    tensor of another float dtype (float64, float16); [MissingInts] is an
    array of integers. [IndexError (i)] is the [IndexError] of an index out
    of bounds, [IndexError_not_integers] the [IndexError] with which the
    backend refuses an index array that is not of integers or booleans. *)
Inductive Missing : Type :=
  | MissingFloats (m : Floats2d)
  | MissingInts (idx : Ints1d)
  | MissingFloatsOther (m : Floats2d).

(** An index into an axis of length [n]: negative indices count from the
    end, indices outside [-n, n) raise [IndexError]. *)
Definition axis_index (n : nat) (i : Z) : result nat :=
  if ((0 <=? i) && (i <? Z.of_nat n))%Z then inr (Z.to_nat i)
  else if ((- Z.of_nat n <=? i) && (i <? 0))%Z then inr (Z.to_nat (i + Z.of_nat n))
  else inl (IndexError i).

Fixpoint axis_indices (n : nat) (idx : Ints1d) : result (list nat) :=
  match idx with
  | [] => inr []
  | i :: rest =>
      match axis_index n i with
      | inl e => inl e
      | inr k =>
          match axis_indices n rest with
          | inl e => inl e
          | inr ks => inr (k :: ks)
          end
      end
  end.

Definition _make_mask (missing : Missing) (shape : nat * nat) : result Floats2d :=
  match missing with
  | MissingFloats m =>
      (* missing.dtype == "f" *)
      inr m
  | MissingInts idx =>
      (* mask = xp.zeros(shape, dtype="f"); mask[missing] = 1 *)
      match axis_indices (fst shape) idx with
      | inl e => inl e
      | inr ks =>
          inr (mk_Floats2d (snd shape)
                 ((λ r, replicate (snd shape) (if bool_decide (r ∈ ks) then 1 else 0))
                    <$> seq 0 (fst shape)))
      end
  | MissingFloatsOther _ =>
      (* the same branch: mask[missing] = 1 with an index array of floats *)
      inl IndexError_not_integers
  end.

(** ** Truths *)

(** An array given as truths: [Ints1d] has [ndim = 1], [Floats2d] has
    [ndim = 2]. *)
Inductive ndarray : Type :=
  | IntsArr (a : Ints1d)
  | FloatsArr (a : Floats2d).

(** [IntsOrFloatsOrStrs = Union[Ints1d, Floats2d, List[int], List[str]]].
    The empty Python list is both [TruthIntList []] and [TruthStrList []]. *)
Inductive Truths : Type :=
  | TruthArray (a : ndarray)
  | TruthIntList (l : list Z)
  | TruthStrList (l : list string).

(** Modelled from the spec: [to_categorical] of [thinc/util.py], which is not
    among the sources. The spec: "expand to dense one-hot form with width =
    predictions' last dimension; index i maps to a unit vector with 1.0 at
    position i, 0.0 elsewhere". *)
Definition one_hot (n_classes : nat) (i : Z) : list R :=
  (λ j, if bool_decide (Z.of_nat j = i) then 1 else 0) <$> seq 0 n_classes.

Definition to_categorical (labels : Ints1d) (n_classes : nat) : Floats2d :=
  mk_Floats2d n_classes (one_hot n_classes <$> labels).

(** [{name: i for i, name in enumerate(names)}]: a later duplicate wins. *)
Definition name_table (names : list string) : gmap string nat :=
  foldl (λ tbl '(i, name), <[name := i]> tbl) ∅ (imap pair names).

(** [[table[name] for name in truths]]: the first absent name raises. *)
Fixpoint lookup_names (table : gmap string nat) (truths : list string)
  : result (list Z) :=
  match truths with
  | [] => inr []
  | name :: rest =>
      match table !! name with
      | None => inl (KeyError name)
      | Some i =>
          match lookup_names table rest with
          | inl e => inl e
          | inr rest' => inr (Z.of_nat i :: rest')
          end
      end
  end.

(** ** [CategoricalCrossentropy] *)

Module CategoricalCrossentropy.

Record t : Type := mk {
  normalize : bool;
  names : option (list string);
  _name_to_i : option (gmap string nat)
}.

Definition __init__ (normalize : bool) (names : option (list string)) : t :=
  mk normalize names
     (match names with
      | Some ns => Some (name_table ns)
      | None => None
      end).

Local Open Scope method_scope.

Definition convert_truths (truths : Truths) (guesses : Floats2d)
  : method t Floats2d :=
  let n_classes := ncols guesses in
  truths <-
    match truths with
    | TruthStrList ((_ :: _) as labels) =>
        (* len(truths) and isinstance(truths[0], str) *)
        names <- attr names ;;
        match names with
        | None => raise (ValueError msg_no_names)
        | Some _ =>
            table <- attr _name_to_i ;;
            match table with
            | None => raise TypeError
            | Some table =>
                indices <- call (lookup_names table labels) ;;
                ret (IntsArr indices)
            end
        end
    | TruthStrList [] => ret (IntsArr [])
    | TruthIntList labels => ret (IntsArr labels)
    | TruthArray a => ret a
    end ;;
  match truths with
  | IntsArr labels =>
      (* truths.ndim != guesses.ndim *)
      ret (to_categorical labels n_classes)
  | FloatsArr dense => ret dense
  end.

Definition get_grad (guesses : Floats2d) (truths : Truths)
    (missing : option Missing) : method t Floats2d :=
  target <- convert_truths truths guesses ;;
  check bool_decide (shape guesses = shape target)
    else_raise ValueError (msg_cce_shapes (shape guesses) (shape target)) ;;
  check negb (bool_gt (any guesses) 1 || bool_lt (any guesses) 0)
    else_raise ValueError msg_guesses_interval ;;
  check negb (bool_gt (any target) 1 || bool_lt (any target) 0)
    else_raise ValueError msg_truths_interval ;;
  let difference := zip2d Rminus guesses target in
  difference <-
    match missing with
    | Some missing =>
        mask <- call (_make_mask missing (shape guesses)) ;;
        call (imul difference (map2d (λ m, 1 - m) mask))
    | None => ret difference
    end ;;
  normalize <- attr normalize ;;
  if normalize : bool then ret (div_batch difference (nrows guesses))
  else ret difference.

Definition _get_loss_from_grad (d_truth : Floats2d) : method t R :=
  ret (total (map2d (λ x, x ^ 2) d_truth)).

Definition get_loss (guesses : Floats2d) (truths : Truths)
    (missing : option Missing) : method t R :=
  d_truth <- get_grad guesses truths missing ;;
  _get_loss_from_grad d_truth.

Definition __call__ (guesses : Floats2d) (truths : Truths)
    (missing : option Missing) : method t (Floats2d * R) :=
  d_truth <- get_grad guesses truths missing ;;
  loss <- _get_loss_from_grad d_truth ;;
  ret (d_truth, loss).

End CategoricalCrossentropy.

(** ** [SequenceCategoricalCrossentropy] *)

Module SequenceCategoricalCrossentropy.

Record t : Type := mk { cc : CategoricalCrossentropy.t }.

Definition __init__ (normalize : bool) (names : option (list string)) : t :=
  mk (CategoricalCrossentropy.__init__ normalize names).

Definition set_cc (inner : CategoricalCrossentropy.t) (self : t) : t := mk inner.

Local Open Scope method_scope.

(** The loop [for yh, y in zip(guesses, truths): d_scores.append(...)]. *)
Fixpoint grad_loop (steps : list (Floats2d * ndarray)) (d_scores : list Floats2d)
  : method t (list Floats2d) :=
  match steps with
  | [] => ret d_scores
  | (yh, y) :: rest =>
      d <- on_attr cc set_cc (CategoricalCrossentropy.get_grad yh (TruthArray y) None) ;;
      grad_loop rest (d_scores ++ [d])
  end.

Definition get_grad (guesses : list Floats2d) (truths : list ndarray)
  : method t (list Floats2d) :=
  check bool_decide (length guesses = length truths)
    else_raise ValueError msg_seq_length ;;
  grad_loop (zip guesses truths) [].

(** The loop [for yh, y in zip(guesses, truths): losses.append(...)]. *)
Fixpoint loss_loop (steps : list (Floats2d * ndarray)) (losses : list R)
  : method t (list R) :=
  match steps with
  | [] => ret losses
  | (yh, y) :: rest =>
      l <- on_attr cc set_cc (CategoricalCrossentropy.get_loss yh (TruthArray y) None) ;;
      loss_loop rest (losses ++ [l])
  end.

Definition get_loss (guesses : list Floats2d) (truths : list ndarray)
  : method t (list R) :=
  loss_loop (zip guesses truths) [].

Definition __call__ (guesses : list Floats2d) (truths : list ndarray)
  : method t (list Floats2d * list R) :=
  grads <- get_grad guesses truths ;;
  losses <- get_loss guesses truths ;;
  ret (grads, losses).

End SequenceCategoricalCrossentropy.

(** ** [L2Distance] *)

Module L2Distance.

Record t : Type := mk { normalize : bool }.

Definition __init__ (normalize : bool) : t := mk normalize.

Local Open Scope method_scope.

Definition get_grad (guesses truths : Floats2d) : method t Floats2d :=
  check bool_decide (shape guesses = shape truths)
    else_raise ValueError (msg_l2_shapes (shape guesses) (shape truths)) ;;
  let difference := zip2d Rminus guesses truths in
  normalize <- attr normalize ;;
  if normalize : bool then ret (div_batch difference (nrows guesses))
  else ret difference.

Definition get_loss (guesses truths : Floats2d) : method t R :=
  check bool_decide (shape guesses = shape truths)
    else_raise ValueError (msg_l2_shapes (shape guesses) (shape truths)) ;;
  d_truth <- get_grad guesses truths ;;
  ret (total (map2d (λ x, x ^ 2) d_truth)).

Definition __call__ (guesses truths : Floats2d) : method t (Floats2d * R) :=
  grad <- get_grad guesses truths ;;
  loss <- get_loss guesses truths ;;
  ret (grad, loss).

End L2Distance.

(** ** [CosineDistance] *)

(** The constant added "to avoid 0 vectors". *)
Definition epsilon : R := 1e-8.

(** A [(batch, 1)] array, as [keepdims=True] and [axis=1] reductions give:
    one entry per row. *)
Abbreviation Column := (list R) (only parsing).

(** [xp.linalg.norm(t, axis=1, keepdims=True)]. *)
Definition row_norm (r : list R) : R := sqrt (sum ((λ x, x ^ 2) <$> r)).

(** [(a * b).sum(axis=1, keepdims=True)]. *)
Definition row_dot (a b : list R) : R := sum (zip_with Rmult a b).

(** [xp.abs(t).sum(axis=1) == 0]. *)
Definition zero_row (r : list R) : bool := bool_decide (sum (Rabs <$> r) = 0).

(** [t / c] and [c * t] for a tensor [t] and a column [c], broadcast along
    the rows. *)
Definition div_col (t : list (list R)) (c : Column) : list (list R) :=
  zip_with (λ (r : list R) d, (λ x, x / d) <$> r) t c.

Definition mul_col (c : Column) (t : list (list R)) : list (list R) :=
  zip_with (λ d (r : list R), (λ x, d * x) <$> r) c t.

(** [t[zero_indices] = 0]. *)
Definition zero_rows {A} (zero : A) (zero_indices : list bool) (t : list A) : list A :=
  zip_with (λ (z : bool) r, if z then zero else r) zero_indices t.

Module CosineDistance.

Record t : Type := mk { normalize : bool; ignore_zeros : bool }.

Definition __init__ (normalize ignore_zeros : bool) : t := mk normalize ignore_zeros.

Local Open Scope method_scope.

Definition get_similarity (guesses truths : Floats2d) : method t Column :=
  check bool_decide (shape guesses = shape truths)
    else_raise ValueError (msg_cosine_shapes (shape guesses) (shape truths)) ;;
  let yh := map2d (λ x, x + epsilon) guesses in
  let y := map2d (λ x, x + epsilon) truths in
  let norm_yh := row_norm <$> rows yh in
  let norm_y := row_norm <$> rows y in
  let mul_norms := zip_with Rmult norm_yh norm_y in
  let cosine := zip_with Rdiv (zip_with row_dot (rows yh) (rows y)) mul_norms in
  ret cosine.

Definition get_grad (guesses truths : Floats2d) : method t Floats2d :=
  check bool_decide (shape guesses = shape truths)
    else_raise ValueError (msg_cosine_shapes (shape guesses) (shape truths)) ;;
  ignore_zeros <- attr ignore_zeros ;;
  let zero_indices := zero_row <$> rows truths in
  let yh := map2d (λ x, x + epsilon) guesses in
  let y := map2d (λ x, x + epsilon) truths in
  let norm_yh := row_norm <$> rows yh in
  let norm_y := row_norm <$> rows y in
  let mul_norms := zip_with Rmult norm_yh norm_y in
  let cosine := zip_with Rdiv (zip_with row_dot (rows yh) (rows y)) mul_norms in
  let d_yh :=
    zip_with (zip_with Rminus)
      (div_col (rows y) mul_norms)
      (mul_col cosine (div_col (rows yh) ((λ x, x ^ 2) <$> norm_yh))) in
  let d_yh :=
    if ignore_zeros : bool
    then zip_with (λ (z : bool) (r : list R), if z then (λ _, 0) <$> r else r)
           zero_indices d_yh
    else d_yh in
  normalize <- attr normalize ;;
  let d_yh :=
    if normalize : bool
    then (λ r : list R, (λ x, x / INR (nrows guesses)) <$> r) <$> d_yh
    else d_yh in
  ret (mk_Floats2d (ncols guesses) ((λ r : list R, Ropp <$> r) <$> d_yh)).

(** The array [losses] of [get_loss], as it is when [losses.sum()] is
    taken. *)
Definition losses (guesses truths : Floats2d) : method t Column :=
  check bool_decide (shape guesses = shape truths)
    else_raise ValueError (msg_cosine_shapes (shape guesses) (shape truths)) ;;
  cosine <- get_similarity guesses truths ;;
  let losses := (λ c, Rabs (c - 1)) <$> cosine in
  ignore_zeros <- attr ignore_zeros ;;
  let losses :=
    if ignore_zeros : bool
    then zero_rows 0 (zero_row <$> rows truths) losses
    else losses in
  normalize <- attr normalize ;;
  let losses :=
    if normalize : bool
    then (λ x, x / INR (nrows guesses)) <$> losses
    else losses in
  ret losses.

Definition get_loss (guesses truths : Floats2d) : method t R :=
  losses <- losses guesses truths ;;
  ret (sum losses).

Definition __call__ (guesses truths : Floats2d) : method t (Floats2d * R) :=
  grad <- get_grad guesses truths ;;
  loss <- get_loss guesses truths ;;
  ret (grad, loss).

End CosineDistance.

(** * Properties *)

(** ** Methods that only read the object *)

(** A method leaves the object as it found it. *)
Definition readonly {Self A} (m : method Self A) : Prop :=
  ∀ self, after m self = self.

Section Readonly.
Context {Self : Type}.

Lemma readonly_ret {A} (a : A) : readonly (ret (Self:=Self) a).
Proof. intros self. reflexivity. Qed.

Lemma readonly_raise {A} e : readonly (raise (Self:=Self) (A:=A) e).
Proof. intros self. reflexivity. Qed.

Lemma readonly_attr {A} (f : Self → A) : readonly (attr f).
Proof. intros self. reflexivity. Qed.

Lemma readonly_call {A} (r : result A) : readonly (call (Self:=Self) r).
Proof. intros self. reflexivity. Qed.

Lemma readonly_bind {A B} (m : method Self A) (k : A → method Self B) :
  readonly m → (∀ a, readonly (k a)) → readonly (bind m k).
Proof.
  intros Hm Hk self. unfold after, bind.
  specialize (Hm self). unfold after in Hm.
  destruct (m self) as [self' [e | a]]; simpl in *; subst self'.
  - reflexivity.
  - apply Hk.
Qed.

Lemma readonly_on_attr {Inner A} (get : Self → Inner) (set : Inner → Self → Self)
    (m : method Inner A) :
  (∀ self, set (get self) self = self) → readonly m → readonly (on_attr get set m).
Proof.
  intros Hset Hm self. unfold after, on_attr.
  specialize (Hm (get self)). unfold after in Hm.
  destruct (m (get self)) as [inner r]; simpl in *; subst inner. apply Hset.
Qed.

(** What a read-only method does is told by its outcome alone. *)
Lemma readonly_run {A} (m : method Self A) self :
  readonly m → m self = (self, outcome m self).
Proof.
  intros Hm. specialize (Hm self). unfold after, outcome in *.
  destruct (m self); simpl in *; congruence.
Qed.

Lemma outcome_bind {A B} (m : method Self A) (k : A → method Self B) self :
  readonly m →
  outcome (bind m k) self =
    match outcome m self with
    | inr a => outcome (k a) self
    | inl e => inl e
    end.
Proof.
  intros Hm. unfold outcome at 1. unfold bind.
  rewrite (readonly_run m self Hm). destruct (outcome m self); reflexivity.
Qed.
End Readonly.

Create HintDb readonly.
#[export] Hint Resolve readonly_ret readonly_raise readonly_attr readonly_call : readonly.

Ltac readonly_step :=
  match goal with
  | |- readonly (bind _ _) => apply readonly_bind; [ | intros ? ]
  | |- readonly (match ?x with _ => _ end) => destruct x
  | |- readonly _ => solve [ auto with readonly ]
  end.

Ltac solve_readonly := repeat readonly_step.

Module CCE := CategoricalCrossentropy.
Module SeqCCE := SequenceCategoricalCrossentropy.

Lemma CCE_convert_truths_readonly truths guesses :
  readonly (CCE.convert_truths truths guesses).
Proof. unfold CCE.convert_truths. solve_readonly. Qed.

Lemma CCE_get_grad_readonly guesses truths missing :
  readonly (CCE.get_grad guesses truths missing).
Proof.
  unfold CCE.get_grad.
  apply readonly_bind; [ apply CCE_convert_truths_readonly | intros target ].
  solve_readonly.
Qed.

Lemma CCE_get_loss_readonly guesses truths missing :
  readonly (CCE.get_loss guesses truths missing).
Proof.
  unfold CCE.get_loss, CCE._get_loss_from_grad.
  apply readonly_bind; [ apply CCE_get_grad_readonly | intros; solve_readonly ].
Qed.

Lemma CCE_call_readonly guesses truths missing :
  readonly (CCE.__call__ guesses truths missing).
Proof.
  unfold CCE.__call__, CCE._get_loss_from_grad.
  apply readonly_bind; [ apply CCE_get_grad_readonly | intros; solve_readonly ].
Qed.

#[export] Hint Resolve CCE_convert_truths_readonly CCE_get_grad_readonly
  CCE_get_loss_readonly CCE_call_readonly : readonly.

Lemma SeqCCE_set_cc self : SeqCCE.set_cc (SeqCCE.cc self) self = self.
Proof. destruct self. reflexivity. Qed.

Lemma SeqCCE_grad_loop_readonly steps d_scores :
  readonly (SeqCCE.grad_loop steps d_scores).
Proof.
  revert d_scores. induction steps as [ | [yh y] rest IH ]; intros d_scores; simpl.
  - auto with readonly.
  - apply readonly_bind; [ | intros d; apply IH ].
    apply readonly_on_attr; [ apply SeqCCE_set_cc | auto with readonly ].
Qed.

Lemma SeqCCE_loss_loop_readonly steps losses :
  readonly (SeqCCE.loss_loop steps losses).
Proof.
  revert losses. induction steps as [ | [yh y] rest IH ]; intros losses; simpl.
  - auto with readonly.
  - apply readonly_bind; [ | intros d; apply IH ].
    apply readonly_on_attr; [ apply SeqCCE_set_cc | auto with readonly ].
Qed.

Lemma SeqCCE_get_grad_readonly guesses truths :
  readonly (SeqCCE.get_grad guesses truths).
Proof.
  unfold SeqCCE.get_grad. case_bool_decide; auto with readonly.
  apply SeqCCE_grad_loop_readonly.
Qed.

Lemma SeqCCE_get_loss_readonly guesses truths :
  readonly (SeqCCE.get_loss guesses truths).
Proof. apply SeqCCE_loss_loop_readonly. Qed.

Lemma SeqCCE_call_readonly guesses truths :
  readonly (SeqCCE.__call__ guesses truths).
Proof.
  unfold SeqCCE.__call__.
  apply readonly_bind; [ apply SeqCCE_get_grad_readonly | intros grads ].
  apply readonly_bind; [ apply SeqCCE_get_loss_readonly | intros; auto with readonly ].
Qed.

Lemma L2_get_grad_readonly guesses truths :
  readonly (L2Distance.get_grad guesses truths).
Proof. unfold L2Distance.get_grad. solve_readonly. Qed.

Lemma L2_get_loss_readonly guesses truths :
  readonly (L2Distance.get_loss guesses truths).
Proof.
  unfold L2Distance.get_loss. case_bool_decide; auto with readonly.
  apply readonly_bind; [ apply L2_get_grad_readonly | intros; auto with readonly ].
Qed.

Lemma L2_call_readonly guesses truths :
  readonly (L2Distance.__call__ guesses truths).
Proof.
  unfold L2Distance.__call__.
  apply readonly_bind; [ apply L2_get_grad_readonly | intros grad ].
  apply readonly_bind; [ apply L2_get_loss_readonly | intros; auto with readonly ].
Qed.

Lemma Cosine_get_similarity_readonly guesses truths :
  readonly (CosineDistance.get_similarity guesses truths).
Proof. unfold CosineDistance.get_similarity. solve_readonly. Qed.

Lemma Cosine_get_grad_readonly guesses truths :
  readonly (CosineDistance.get_grad guesses truths).
Proof. unfold CosineDistance.get_grad. solve_readonly. Qed.

Lemma Cosine_losses_readonly guesses truths :
  readonly (CosineDistance.losses guesses truths).
Proof.
  unfold CosineDistance.losses. case_bool_decide; auto with readonly.
  apply readonly_bind; [ apply Cosine_get_similarity_readonly | intros cosine ].
  solve_readonly.
Qed.

Lemma Cosine_get_loss_readonly guesses truths :
  readonly (CosineDistance.get_loss guesses truths).
Proof.
  unfold CosineDistance.get_loss.
  apply readonly_bind; [ apply Cosine_losses_readonly | intros; auto with readonly ].
Qed.

Lemma Cosine_call_readonly guesses truths :
  readonly (CosineDistance.__call__ guesses truths).
Proof.
  unfold CosineDistance.__call__.
  apply readonly_bind; [ apply Cosine_get_grad_readonly | intros grad ].
  apply readonly_bind; [ apply Cosine_get_loss_readonly | intros; auto with readonly ].
Qed.

#[export] Hint Resolve SeqCCE_get_grad_readonly SeqCCE_get_loss_readonly
  SeqCCE_call_readonly L2_get_grad_readonly L2_get_loss_readonly L2_call_readonly
  Cosine_get_similarity_readonly Cosine_get_grad_readonly Cosine_losses_readonly
  Cosine_get_loss_readonly Cosine_call_readonly : readonly.

(** A call neither changes the object nor, therefore, what the next call
    with the same arguments does. *)
Definition stateless {Self A} (m : method Self A) : Prop :=
  ∀ self, after m self = self ∧ m (after m self) = m self.

Lemma readonly_stateless {Self A} (m : method Self A) : readonly m → stateless m.
Proof. intros Hm self. rewrite (Hm self). split; reflexivity. Qed.

(** C8: every call to [get_grad], [get_loss], [get_similarity] or [__call__]
    (and to [convert_truths]) of any kernel leaves the kernel object, hence
    its [normalize] and [ignore_zeros] flags, its [names] list and its
    name-to-index table, as it was, so that the same call repeated on the
    object behaves identically. *)
Theorem kernels_leave_configuration_unchanged :
  (∀ guesses truths missing,
      stateless (CCE.convert_truths truths guesses)
      ∧ stateless (CCE.get_grad guesses truths missing)
      ∧ stateless (CCE.get_loss guesses truths missing)
      ∧ stateless (CCE.__call__ guesses truths missing))
  ∧ (∀ guesses truths,
      stateless (SeqCCE.get_grad guesses truths)
      ∧ stateless (SeqCCE.get_loss guesses truths)
      ∧ stateless (SeqCCE.__call__ guesses truths))
  ∧ (∀ guesses truths,
      stateless (L2Distance.get_grad guesses truths)
      ∧ stateless (L2Distance.get_loss guesses truths)
      ∧ stateless (L2Distance.__call__ guesses truths))
  ∧ (∀ guesses truths,
      stateless (CosineDistance.get_similarity guesses truths)
      ∧ stateless (CosineDistance.get_grad guesses truths)
      ∧ stateless (CosineDistance.get_loss guesses truths)
      ∧ stateless (CosineDistance.__call__ guesses truths)).
Proof.
  repeat split; intros; apply readonly_stateless; auto with readonly.
Qed.

(** ** [CategoricalCrossentropy.get_grad], step by step *)

(** Both operands of [or] in [guesses.any() > 1 or guesses.any() < 0] compare
    a [bool] with an [int]: neither holds, whatever the tensor. *)
Lemma range_test_false (b : bool) : bool_gt b 1 || bool_lt b 0 = false.
Proof. destruct b; reflexivity. Qed.

(** The [difference] of [get_grad] once the mask, if any, is applied. *)
Definition masked_difference (guesses target : Floats2d) (missing : option Missing)
  : result Floats2d :=
  match missing with
  | Some missing =>
      match _make_mask missing (shape guesses) with
      | inr mask => imul (zip2d Rminus guesses target) (map2d (λ m, 1 - m) mask)
      | inl e => inl e
      end
  | None => inr (zip2d Rminus guesses target)
  end.

Lemma CCE_get_grad_outcome self guesses truths missing :
  outcome (CCE.get_grad guesses truths missing) self =
    match outcome (CCE.convert_truths truths guesses) self with
    | inl e => inl e
    | inr target =>
        if bool_decide (shape guesses = shape target) then
          match masked_difference guesses target missing with
          | inl e => inl e
          | inr difference =>
              inr (if CCE.normalize self
                   then div_batch difference (nrows guesses)
                   else difference)
          end
        else inl (ValueError (msg_cce_shapes (shape guesses) (shape target)))
    end.
Proof.
  unfold CCE.get_grad.
  rewrite outcome_bind by apply CCE_convert_truths_readonly.
  destruct (outcome (CCE.convert_truths truths guesses) self) as [e | target];
    [ reflexivity | ].
  case_bool_decide; [ | reflexivity ].
  rewrite !range_test_false. simpl negb. cbv iota.
  unfold masked_difference.
  destruct missing as [missing | ].
  - unfold outcome, bind, call, attr, ret.
    destruct (_make_mask missing (shape guesses)) as [e | mask]; [ reflexivity | ].
    destruct (imul _ _) as [e | d]; [ reflexivity | ].
    destruct (CCE.normalize self); reflexivity.
  - unfold outcome, bind, call, attr, ret.
    destruct (CCE.normalize self); reflexivity.
Qed.

Lemma CCE_get_loss_outcome self guesses truths missing :
  outcome (CCE.get_loss guesses truths missing) self =
    match outcome (CCE.get_grad guesses truths missing) self with
    | inl e => inl e
    | inr d_truth => inr (total (map2d (λ x, x ^ 2) d_truth))
    end.
Proof.
  unfold CCE.get_loss.
  rewrite outcome_bind by apply CCE_get_grad_readonly.
  destruct (outcome (CCE.get_grad guesses truths missing) self); reflexivity.
Qed.

Lemma CCE_call_outcome self guesses truths missing :
  outcome (CCE.__call__ guesses truths missing) self =
    match outcome (CCE.get_grad guesses truths missing) self with
    | inl e => inl e
    | inr d_truth => inr (d_truth, total (map2d (λ x, x ^ 2) d_truth))
    end.
Proof.
  unfold CCE.__call__.
  rewrite outcome_bind by apply CCE_get_grad_readonly.
  destruct (outcome (CCE.get_grad guesses truths missing) self); reflexivity.
Qed.

(** Conversion of an array given as truths. *)
Lemma CCE_convert_array self a guesses :
  outcome (CCE.convert_truths (TruthArray a) guesses) self =
    inr (match a with
         | IntsArr labels => to_categorical labels (ncols guesses)
         | FloatsArr dense => dense
         end).
Proof. destruct a; reflexivity. Qed.

(** The exceptions [convert_truths], [_make_mask] and [*=] can raise. *)
Lemma CCE_convert_truths_raises self truths guesses e :
  outcome (CCE.convert_truths truths guesses) self = inl e →
  e = ValueError msg_no_names ∨ e = TypeError ∨ ∃ key, e = KeyError key.
Proof.
  destruct truths as [ [labels | dense] | labels | [ | name labels] ];
    try discriminate.
  unfold outcome, CCE.convert_truths, bind, attr, raise, call, ret.
  destruct (CCE.names self) as [ns | ]; [ | intros [= <-]; auto ].
  destruct (CCE._name_to_i self) as [table | ]; [ | intros [= <-]; auto ].
  generalize (name :: labels). intros ls.
  destruct (lookup_names table ls) as [e' | indices] eqn:Hl; simpl;
    [ | discriminate ].
  intros [= <-]. right. right.
  revert e' Hl. induction ls as [ | n ls IH ]; intros e' Hl; simpl in Hl.
  - discriminate.
  - destruct (table !! n).
    + destruct (lookup_names table ls); [ | discriminate ].
      injection Hl as <-. eapply IH. reflexivity.
    + injection Hl as <-. eauto.
Qed.

Lemma axis_indices_raises n idx e :
  axis_indices n idx = inl e → ∃ i, e = IndexError i.
Proof.
  revert e. induction idx as [ | i idx IH ]; intros e; simpl; [ discriminate | ].
  unfold axis_index.
  destruct (_ && _)%Z.
  - destruct (axis_indices n idx); [ | discriminate ]. intros [= <-]. eauto.
  - destruct (_ && _)%Z.
    + destruct (axis_indices n idx); [ | discriminate ]. intros [= <-]. eauto.
    + intros [= <-]. eauto.
Qed.

Lemma masked_difference_raises guesses target missing e :
  masked_difference guesses target missing = inl e →
  e = ValueError msg_broadcast ∨ e = IndexError_not_integers ∨ ∃ i, e = IndexError i.
Proof.
  unfold masked_difference.
  destruct missing as [ [m | idx | m] | ]; [ | | | discriminate ].
  - simpl. unfold imul, broadcast_to.
    destruct (_ && _); [ discriminate | ]. intros [= <-]. auto.
  - simpl. destruct (axis_indices _ idx) as [e' | ks] eqn:Hidx.
    + intros [= <-]. right. right. eapply axis_indices_raises, Hidx.
    + unfold imul, broadcast_to.
      destruct (_ && _); [ discriminate | ]. intros [= <-]. auto.
  - simpl. intros [= <-]. auto.
Qed.

(** No call of [get_grad] raises either of the two interval errors. *)
Lemma CCE_get_grad_no_interval_error self guesses truths missing :
  outcome (CCE.get_grad guesses truths missing) self ≠ inl (ValueError msg_guesses_interval)
  ∧ outcome (CCE.get_grad guesses truths missing) self ≠ inl (ValueError msg_truths_interval).
Proof.
  rewrite CCE_get_grad_outcome.
  destruct (outcome (CCE.convert_truths truths guesses) self) as [e | target] eqn:Hc.
  - apply CCE_convert_truths_raises in Hc as [-> | [-> | [key ->] ] ];
      split; discriminate.
  - case_bool_decide; [ | split; discriminate ].
    destruct (masked_difference guesses target missing) as [e | d] eqn:Hm;
      [ | split; discriminate ].
    apply masked_difference_raises in Hm as [-> | [-> | [i ->] ] ]; split; discriminate.
Qed.

(** C2, at guesses [[2, 0]] and dense truths [[0, 1]]: the guesses hold a
    value outside [0, 1], and yet [get_grad] of the default kernel returns
    the gradient [[2, -1]] instead of raising the interval error. *)
Theorem get_grad_returns_for_guesses_outside_interval :
  outcome (CCE.get_grad (mk_Floats2d 2 [[2; 0]])
             (TruthArray (FloatsArr (mk_Floats2d 2 [[0; 1]]))) None)
          (CCE.__init__ true None)
    = inr (mk_Floats2d 2 [[2; -1]]).
Proof.
  rewrite CCE_get_grad_outcome, CCE_convert_array.
  rewrite bool_decide_eq_true_2 by reflexivity.
  simpl. unfold div_batch, map2d, zip2d. simpl.
  do 2 f_equal. repeat f_equal; lra.
Qed.

(** ** [SequenceCategoricalCrossentropy]: the two loops *)

Lemma outcome_on_attr {Self Inner A} (get : Self → Inner) (set : Inner → Self → Self)
    (m : method Inner A) self :
  outcome (on_attr get set m) self = outcome m (get self).
Proof. unfold outcome, on_attr. destruct (m (get self)); reflexivity. Qed.

Lemma SeqCCE_step_readonly {A} (m : method CCE.t A) :
  readonly m → readonly (on_attr SeqCCE.cc SeqCCE.set_cc m).
Proof. apply readonly_on_attr, SeqCCE_set_cc. Qed.

Lemma SeqCCE_loss_loop_cons self yh y rest losses :
  outcome (SeqCCE.loss_loop ((yh, y) :: rest) losses) self =
    match outcome (CCE.get_loss yh (TruthArray y) None) (SeqCCE.cc self) with
    | inl e => inl e
    | inr l => outcome (SeqCCE.loss_loop rest (losses ++ [l])) self
    end.
Proof.
  simpl. rewrite outcome_bind
    by (apply SeqCCE_step_readonly; auto with readonly).
  rewrite outcome_on_attr. reflexivity.
Qed.

Lemma SeqCCE_grad_loop_cons self yh y rest d_scores :
  outcome (SeqCCE.grad_loop ((yh, y) :: rest) d_scores) self =
    match outcome (CCE.get_grad yh (TruthArray y) None) (SeqCCE.cc self) with
    | inl e => inl e
    | inr d => outcome (SeqCCE.grad_loop rest (d_scores ++ [d])) self
    end.
Proof.
  simpl. rewrite outcome_bind
    by (apply SeqCCE_step_readonly; auto with readonly).
  rewrite outcome_on_attr. reflexivity.
Qed.

(** [get_grad] refuses lists of different lengths at once: no step of the
    inner kernel is run. *)
Lemma SeqCCE_get_grad_length_mismatch self guesses truths :
  length guesses ≠ length truths →
  SeqCCE.get_grad guesses truths self = (self, inl (ValueError msg_seq_length)).
Proof.
  intros Hlen. unfold SeqCCE.get_grad.
  rewrite bool_decide_eq_false_2 by assumption. reflexivity.
Qed.

(** C3, at two guesses [[1, 0]], [[0, 1]] and one dense truth [[0, 1]]:
    [get_grad] raises the length error, but [get_loss] has no such check and
    returns the loss of the first step alone, the list [2]. *)
Theorem sequence_get_loss_truncates_on_length_mismatch :
  let guesses := [mk_Floats2d 2 [[1; 0]]; mk_Floats2d 2 [[0; 1]]] in
  let truths := [FloatsArr (mk_Floats2d 2 [[0; 1]])] in
  let self := SeqCCE.__init__ true None in
  length guesses ≠ length truths
  ∧ outcome (SeqCCE.get_grad guesses truths) self = inl (ValueError msg_seq_length)
  ∧ outcome (SeqCCE.get_loss guesses truths) self = inr [2].
Proof.
  cbv zeta. split; [ simpl; lia | split ].
  - unfold outcome. rewrite SeqCCE_get_grad_length_mismatch by (simpl; lia).
    reflexivity.
  - unfold SeqCCE.get_loss. simpl zip.
    rewrite SeqCCE_loss_loop_cons, CCE_get_loss_outcome, CCE_get_grad_outcome,
      CCE_convert_array.
    rewrite bool_decide_eq_true_2 by reflexivity.
    simpl. unfold outcome, ret, total, sum. simpl.
    do 2 f_equal. lra.
Qed.

(** ** The mask *)

(** C10, at a float64 mask [[0, 1]]: it is a tensor of a float dtype, but not
    of the dtype ["f"], so [_make_mask] does not return it: it is used as an
    index array, which raises [IndexError], and so does [get_grad]. *)
Lemma float64_mask_is_not_passed_through :
  let m := mk_Floats2d 2 [[0; 1]] in
  let guesses := mk_Floats2d 2 [[1; 0]] in
  _make_mask (MissingFloatsOther m) (shape guesses) = inl IndexError_not_integers
  ∧ _make_mask (MissingFloatsOther m) (shape guesses) ≠ inr m
  ∧ outcome (CCE.get_grad guesses (TruthArray (FloatsArr guesses))
               (Some (MissingFloatsOther m))) (CCE.__init__ true None)
    = inl IndexError_not_integers.
Proof.
  cbv zeta. split; [ reflexivity | ]. split; [ discriminate | ].
  rewrite CCE_get_grad_outcome, CCE_convert_array.
  rewrite bool_decide_eq_true_2 by reflexivity. reflexivity.
Qed.

(** C10, as the code has it: a [missing] of dtype ["f"] (float32) is
    returned by [_make_mask] as it is, whatever [shape] is asked for, and
    whatever its own shape it is that tensor which [get_grad] multiplies
    into the difference; a float tensor of another dtype (float64, float16)
    is not returned: it takes the branch of indices and raises
    [IndexError], whatever its content and the shape asked for. *)
Theorem make_mask_float_passes_through :
  (∀ m shape, _make_mask (MissingFloats m) shape = inr m)
  ∧ (∀ m shape, _make_mask (MissingFloatsOther m) shape = inl IndexError_not_integers)
  ∧ (∀ self guesses truths m,
       outcome (CCE.get_grad guesses truths (Some (MissingFloats m))) self =
         match outcome (CCE.convert_truths truths guesses) self with
         | inl e => inl e
         | inr target =>
             if bool_decide (shape guesses = shape target) then
               match imul (zip2d Rminus guesses target) (map2d (λ x, 1 - x) m) with
               | inl e => inl e
               | inr difference =>
                   inr (if CCE.normalize self
                        then div_batch difference (nrows guesses)
                        else difference)
               end
             else inl (ValueError (msg_cce_shapes (shape guesses) (shape target)))
         end).
Proof.
  split; [ reflexivity | ]. split; [ reflexivity | ].
  intros self guesses truths m. rewrite CCE_get_grad_outcome. reflexivity.
Qed.

(** A float mask of shape (1, 2) against guesses of shape (2, 2): it is not
    checked against the guesses' shape, and the backend broadcasts it. *)
Example float_mask_of_other_shape :
  outcome (CCE.get_grad (mk_Floats2d 2 [[1; 0]; [0; 1]])
             (TruthArray (FloatsArr (mk_Floats2d 2 [[0; 1]; [0; 1]])))
             (Some (MissingFloats (mk_Floats2d 2 [[0; 1]]))))
          (CCE.__init__ false None)
    = inr (mk_Floats2d 2 [[1; 0]; [0; 0]]).
Proof.
  rewrite CCE_get_grad_outcome, CCE_convert_array.
  rewrite bool_decide_eq_true_2 by reflexivity.
  simpl. unfold zip2d. simpl. do 2 f_equal. repeat f_equal; lra.
Qed.

(** ** The truth converter *)

(** C9: the empty list given as truths, to any kernel object (with or without
    a name table), raises nothing: it skips the branch of string labels and
    is converted as an empty list of integer labels, to the dense tensor
    with no row. *)
Theorem convert_truths_empty_list :
  ∀ (self : CCE.t) guesses,
    CCE.convert_truths (TruthStrList []) guesses self
      = (self, inr (to_categorical [] (ncols guesses)))
    ∧ CCE.convert_truths (TruthIntList []) guesses self
      = (self, inr (to_categorical [] (ncols guesses)))
    ∧ to_categorical [] (ncols guesses) = mk_Floats2d (ncols guesses) [].
Proof. intros self guesses. repeat split. Qed.

(** The name table holds exactly the names it was built from. *)
Lemma name_table_fold_None (l : list (nat * string)) (tbl : gmap string nat) key :
  foldl (λ tbl '(i, name), <[name := i]> tbl) tbl l !! key = None
  ↔ tbl !! key = None ∧ key ∉ l.*2.
Proof.
  revert tbl. induction l as [ | [i name] l IH ]; intros tbl; simpl.
  - split; [ intros H; split; [ assumption | apply not_elem_of_nil ] | tauto ].
  - rewrite IH, lookup_insert_None, not_elem_of_cons. simpl.
    split; [ intros [ [Hk Hne] Hl ] | intros [Hk [Hne Hl] ] ]; auto.
Qed.

Lemma imap_pair_snd {A B} (f : nat → B) (l : list A) :
  (imap (λ i x, (f i, x)) l).*2 = l.
Proof.
  revert f. induction l as [ | x l IH ]; intros f; simpl; [ reflexivity | ].
  f_equal. apply (IH (f ∘ S)).
Qed.

Lemma name_table_None names key : name_table names !! key = None ↔ key ∉ names.
Proof.
  assert (Hsnd : (imap pair names).*2 = names)
    by apply (imap_pair_snd (λ i, i)).
  unfold name_table. rewrite name_table_fold_None, lookup_empty, Hsnd. tauto.
Qed.

(** The list comprehension over the labels raises [KeyError] at the first
    label the table does not hold: the labels before it are all held. *)
Lemma lookup_names_first_absent table labels :
  (∃ label, label ∈ labels ∧ table !! label = None) →
  ∃ before key after,
    labels = before ++ key :: after
    ∧ Forall (λ label, is_Some (table !! label)) before
    ∧ table !! key = None
    ∧ lookup_names table labels = inl (KeyError key).
Proof.
  induction labels as [ | name labels IH ]; intros (label & Hin & Habs).
  - inversion Hin.
  - simpl. destruct (table !! name) as [i | ] eqn:Hname.
    + apply elem_of_cons in Hin as [-> | Hin]; [ congruence | ].
      destruct IH as (before & key & after & -> & Hbefore & Hnone & ->); [ eauto | ].
      exists (name :: before), key, after. split; [ reflexivity | ].
      split; [ constructor; [ eauto | assumption ] | auto ].
    + exists [], name, labels. split; [ reflexivity | ].
      split; [ constructor | auto ].
Qed.

Lemma CCE_convert_strings_no_names self label labels guesses :
  CCE.names self = None →
  outcome (CCE.convert_truths (TruthStrList (label :: labels)) guesses) self
    = inl (ValueError msg_no_names).
Proof.
  intros Hnames. unfold outcome, CCE.convert_truths, bind, attr, raise.
  rewrite Hnames. reflexivity.
Qed.

Lemma CCE_convert_strings_table normalize names label labels guesses :
  outcome (CCE.convert_truths (TruthStrList (label :: labels)) guesses)
          (CCE.__init__ normalize (Some names))
    = match lookup_names (name_table names) (label :: labels) with
      | inl e => inl e
      | inr indices => inr (to_categorical indices (ncols guesses))
      end.
Proof.
  unfold outcome, CCE.convert_truths, bind, attr, raise, call, ret.
  cbn [CCE.__init__ CCE.names CCE._name_to_i].
  destruct (lookup_names (name_table names) (label :: labels)); reflexivity.
Qed.

(** An exception of [convert_truths] is the outcome of [get_grad], and so of
    [get_loss] and [__call__]: nothing is computed before it. *)
Lemma CCE_convert_error_propagates self guesses truths missing e :
  outcome (CCE.convert_truths truths guesses) self = inl e →
  outcome (CCE.get_grad guesses truths missing) self = inl e
  ∧ outcome (CCE.get_loss guesses truths missing) self = inl e
  ∧ outcome (CCE.__call__ guesses truths missing) self = inl e.
Proof.
  intros He.
  assert (Hg : outcome (CCE.get_grad guesses truths missing) self = inl e)
    by (rewrite CCE_get_grad_outcome, He; reflexivity).
  rewrite CCE_get_loss_outcome, CCE_call_outcome, Hg. auto.
Qed.

(** C4, at the names [dog, cat] and the truths [bird]: a label absent from
    the name table raises [KeyError], which is no [ValueError] as the error
    of the missing name table is. *)
Lemma absent_label_raises_KeyError :
  let self := CCE.__init__ true (Some ["dog"; "cat"]%string) in
  let guesses := mk_Floats2d 2 [[1; 0]] in
  let truths := TruthStrList ["bird"%string] in
  outcome (CCE.get_grad guesses truths None) self = inl (KeyError "bird")
  ∧ is_ValueError (KeyError "bird") = false
  ∧ outcome (CCE.get_grad guesses truths None) (CCE.__init__ true None)
    = inl (ValueError msg_no_names).
Proof.
  cbv zeta. split; [ | split; [ reflexivity | ] ].
  - apply CCE_convert_error_propagates.
    rewrite CCE_convert_strings_table. reflexivity.
  - apply CCE_convert_error_propagates.
    apply CCE_convert_strings_no_names. reflexivity.
Qed.

(** C4, as the code has it: for a non-empty list of string truths, a kernel
    without names raises the [ValueError] of the missing name table, and a
    kernel constructed with names raises, when some label of the list is not
    among them, the [KeyError] of the first such label (the labels before it
    in the list are all among the names); either exception is the outcome of
    [convert_truths], the first step of [get_grad], [get_loss] and
    [__call__]. *)
Theorem string_truths_errors :
  ∀ guesses label labels missing,
    (∀ self, CCE.names self = None →
       let truths := TruthStrList (label :: labels) in
       let e := ValueError msg_no_names in
       outcome (CCE.convert_truths truths guesses) self = inl e
       ∧ outcome (CCE.get_grad guesses truths missing) self = inl e
       ∧ outcome (CCE.get_loss guesses truths missing) self = inl e
       ∧ outcome (CCE.__call__ guesses truths missing) self = inl e)
    ∧ (∀ normalize names,
         (∃ absent, absent ∈ (label :: labels) ∧ absent ∉ names) →
         ∃ before key after,
           label :: labels = before ++ key :: after
           ∧ Forall (λ present, present ∈ names) before
           ∧ (key ∉ names) ∧
           (let self := CCE.__init__ normalize (Some names) in
            let truths := TruthStrList (label :: labels) in
            let e := KeyError key in
            is_ValueError e = false
            ∧ outcome (CCE.convert_truths truths guesses) self = inl e
            ∧ outcome (CCE.get_grad guesses truths missing) self = inl e
            ∧ outcome (CCE.get_loss guesses truths missing) self = inl e
            ∧ outcome (CCE.__call__ guesses truths missing) self = inl e)).
Proof.
  intros guesses label labels missing. split.
  - intros self Hnames. cbv zeta.
    pose proof (CCE_convert_strings_no_names self label labels guesses Hnames) as Hc.
    split; [ exact Hc | ]. apply CCE_convert_error_propagates, Hc.
  - intros normalize names (absent & Hin & Habs).
    destruct (lookup_names_first_absent (name_table names) (label :: labels))
      as (before & key & after & Hsplit & Hbefore & Hnone & Hlookup).
    { exists absent. split; [ assumption | ]. apply name_table_None, Habs. }
    exists before, key, after. split; [ exact Hsplit | ].
    split.
    { eapply Forall_impl; [ exact Hbefore | ]. intros present [i Hi]. simpl.
      destruct (decide (present ∈ names)) as [ | Hnot ]; [ assumption | ].
      apply name_table_None in Hnot. congruence. }
    split; [ apply name_table_None, Hnone | ]. cbv zeta.
    assert (Hc : outcome (CCE.convert_truths (TruthStrList (label :: labels)) guesses)
                   (CCE.__init__ normalize (Some names)) = inl (KeyError key))
      by (rewrite CCE_convert_strings_table, Hlookup; reflexivity).
    split; [ reflexivity | ]. split; [ exact Hc | ].
    apply CCE_convert_error_propagates, Hc.
Qed.

Lemma string_truths_errors_witness :
  let guesses := mk_Floats2d 2 [[1; 0]] in
  let truths := TruthStrList ["bird"%string] in
  outcome (CCE.get_grad guesses truths None) (CCE.__init__ true None)
    = inl (ValueError msg_no_names)
  ∧ ∃ key, outcome (CCE.get_grad guesses truths None)
             (CCE.__init__ true (Some ["dog"; "cat"]%string)) = inl (KeyError key).
Proof.
  cbv zeta.
  destruct (string_truths_errors (mk_Floats2d 2 [[1; 0]]) "bird"%string [] None)
    as [Hnone Hsome].
  split.
  - apply (Hnone (CCE.__init__ true None)). reflexivity.
  - destruct (Hsome true ["dog"; "cat"]%string) as (before & key & after & _ & _ & _ & H).
    + exists "bird"%string. split; [ left | ].
      intros Hin. repeat (apply elem_of_cons in Hin as [Hin | Hin];
                          [ discriminate Hin | ]). inversion Hin.
    + exists key. apply H.
Defined.

(** What the one-hot row of a label holds. *)
Lemma one_hot_length n i : length (one_hot n i) = n.
Proof. unfold one_hot. rewrite length_fmap. apply length_seq. Qed.

Lemma one_hot_lookup n i j :
  (j < n)%nat →
  one_hot n i !! j = Some (if bool_decide (Z.of_nat j = i) then 1 else 0).
Proof.
  intros Hj. unfold one_hot. rewrite list_lookup_fmap, lookup_seq_lt by assumption.
  reflexivity.
Qed.

Lemma to_categorical_wf labels n : wf (to_categorical labels n).
Proof.
  unfold wf, to_categorical. simpl. apply Forall_fmap, Forall_forall.
  intros i _. apply one_hot_length.
Qed.

(** Every conversion gives a dense tensor that conversion leaves alone. *)
Lemma CCE_convert_dense self dense guesses :
  CCE.convert_truths (TruthArray (FloatsArr dense)) guesses self = (self, inr dense).
Proof. reflexivity. Qed.

(** C6: integer labels, given as a tensor or as a list, are converted to one
    row per label, of as many entries as the guesses have columns, holding 1
    at the position of the label and 0 elsewhere; truths that are dense
    already are returned unchanged, so that converting the result of a
    conversion again returns it. *)
Theorem convert_truths_one_hot_and_idempotent :
  ∀ (self : CCE.t) guesses,
    (∀ labels,
       let target := to_categorical labels (ncols guesses) in
       CCE.convert_truths (TruthArray (IntsArr labels)) guesses self = (self, inr target)
       ∧ CCE.convert_truths (TruthIntList labels) guesses self = (self, inr target)
       ∧ ncols target = ncols guesses
       ∧ nrows target = length labels
       ∧ ∀ k i, labels !! k = Some i →
           ∃ row, rows target !! k = Some row
                  ∧ length row = ncols guesses
                  ∧ ∀ j, (j < ncols guesses)%nat →
                      row !! j = Some (if bool_decide (Z.of_nat j = i) then 1 else 0))
    ∧ (∀ dense,
         CCE.convert_truths (TruthArray (FloatsArr dense)) guesses self
           = (self, inr dense))
    ∧ (∀ truths,
         match outcome (CCE.convert_truths truths guesses) self with
         | inr target =>
             outcome (CCE.convert_truths (TruthArray (FloatsArr target)) guesses) self
               = inr target
         | inl _ => True
         end).
Proof.
  intros self guesses. split; [ | split ].
  - intros labels. cbv zeta. repeat split.
    + unfold nrows, to_categorical. simpl. apply length_fmap.
    + intros k i Hk. exists (one_hot (ncols guesses) i). split; [ | split ].
      * unfold to_categorical. simpl. rewrite list_lookup_fmap, Hk. reflexivity.
      * apply one_hot_length.
      * intros j Hj. apply one_hot_lookup, Hj.
  - reflexivity.
  - intros truths.
    destruct (outcome (CCE.convert_truths truths guesses) self); [ exact I | ].
    reflexivity.
Qed.

Lemma convert_truths_one_hot_and_idempotent_witness :
  ∃ row, rows (to_categorical [1; 0]%Z 2) !! 0%nat = Some row
         ∧ row !! 0%nat = Some 0 ∧ row !! 1%nat = Some 1.
Proof.
  destruct (convert_truths_one_hot_and_idempotent
              (CCE.__init__ true None) (mk_Floats2d 2 [[1; 0]; [0; 1]]))
    as [Hlabels _].
  destruct (Hlabels [1; 0]%Z) as (_ & _ & _ & _ & Hrows).
  destruct (Hrows 0%nat 1%Z eq_refl) as (row & Hrow & _ & Hentries).
  exists row. split; [ exact Hrow | ]. split.
  - rewrite (Hentries 0%nat) by (simpl; lia). reflexivity.
  - rewrite (Hentries 1%nat) by (simpl; lia). reflexivity.
Defined.

(** ** Masked gradients *)

Lemma stretch_same {A} (n : nat) (l : list A) : length l = n → stretch n l = l.
Proof.
  intros <-. destruct l as [ | x [ | y l ] ]; reflexivity.
Qed.

Lemma shape_eq (a b : Floats2d) :
  shape a = shape b ↔ nrows a = nrows b ∧ ncols a = ncols b.
Proof. unfold shape. split; [ intros [= -> ->]; auto | intros [-> ->]; auto ]. Qed.

Lemma broadcast_to_same_shape (m : Floats2d) s :
  wf m → shape m = s → broadcast_to m s = inr m.
Proof.
  intros Hwf <-. unfold broadcast_to, shape. simpl.
  rewrite !Nat.eqb_refl. simpl.
  rewrite stretch_same by reflexivity.
  destruct m as [c rs]. unfold wf in Hwf. simpl in *. do 2 f_equal.
  induction Hwf as [ | r rs Hr _ IH ]; simpl; [ reflexivity | ].
  rewrite stretch_same by assumption. f_equal. apply IH.
Qed.

Lemma wf_map2d f (t : Floats2d) : wf t → wf (map2d f t).
Proof.
  unfold wf, map2d. simpl. intros Hwf. apply Forall_fmap.
  eapply Forall_impl; [ exact Hwf | ]. intros r Hr. simpl. rewrite length_fmap. exact Hr.
Qed.

Lemma shape_map2d f (t : Floats2d) : shape (map2d f t) = shape t.
Proof. unfold shape, nrows, map2d. simpl. rewrite length_fmap. reflexivity. Qed.

Lemma shape_zip2d f (a b : Floats2d) : shape a = shape b → shape (zip2d f a b) = shape a.
Proof.
  intros [Hr Hc]%shape_eq. unfold shape, nrows, zip2d in *. simpl.
  rewrite length_zip_with. f_equal. lia.
Qed.




Lemma div_batch_zero s n : div_batch (full s 0) n = full s 0.
Proof.
  unfold div_batch, map2d, full. simpl. rewrite !fmap_replicate.
  do 3 f_equal. unfold Rdiv. apply Rmult_0_l.
Qed.

Lemma sum_replicate_zero n : sum (replicate n 0) = 0.
Proof. induction n as [ | n IH ]; simpl; [ reflexivity | ]. rewrite IH. lra. Qed.

Lemma total_squares_zero s : total (map2d (λ x, x ^ 2) (full s 0)) = 0.
Proof.
  unfold total, map2d, full. simpl. rewrite !fmap_replicate.
  replace (0 * (0 * 1)) with 0 by ring.
  rewrite sum_replicate_zero. apply sum_replicate_zero.
Qed.

(** The mask that a float tensor of ones, or the list of all row indices,
    stands for. *)
Lemma make_mask_float_ones s : _make_mask (MissingFloats (full s 1)) s = inr (full s 1).
Proof. reflexivity. Qed.







(** ** [L2Distance] *)

Lemma L2_get_grad_outcome self guesses truths :
  outcome (L2Distance.get_grad guesses truths) self =
    if bool_decide (shape guesses = shape truths) then
      inr (if L2Distance.normalize self
           then div_batch (zip2d Rminus guesses truths) (nrows guesses)
           else zip2d Rminus guesses truths)
    else inl (ValueError (msg_l2_shapes (shape guesses) (shape truths))).
Proof.
  unfold outcome, L2Distance.get_grad, bind, attr, ret, raise.
  case_bool_decide; [ | reflexivity ].
  destruct (L2Distance.normalize self); reflexivity.
Qed.

Lemma L2_get_loss_outcome self guesses truths :
  outcome (L2Distance.get_loss guesses truths) self =
    match outcome (L2Distance.get_grad guesses truths) self with
    | inl e => inl e
    | inr d_truth => inr (total (map2d (λ x, x ^ 2) d_truth))
    end.
Proof.
  rewrite L2_get_grad_outcome. unfold L2Distance.get_loss.
  case_bool_decide as Hshape; [ | reflexivity ].
  rewrite outcome_bind by apply L2_get_grad_readonly.
  rewrite L2_get_grad_outcome, bool_decide_eq_true_2 by assumption.
  reflexivity.
Qed.

(** ** [CosineDistance], row by row *)

(** A row with the constant added. *)
Definition stabilized (r : list R) : list R := (λ x, x + epsilon) <$> r.

(** The entry of [cosine] for a row of guesses and the row of truths. *)
Definition row_cosine (g t : list R) : R :=
  row_dot (stabilized g) (stabilized t)
  / (row_norm (stabilized g) * row_norm (stabilized t)).

(** The row of the gradient for a row of guesses and the row of truths, in a
    batch of [n] rows. *)
Definition row_gradient (normalize ignore_zeros : bool) (n : nat) (g t : list R)
  : list R :=
  let yh := stabilized g in
  let y := stabilized t in
  let d_yh :=
    zip_with Rminus
      ((λ x, x / (row_norm yh * row_norm y)) <$> y)
      ((λ x, row_cosine g t * x) <$> ((λ x, x / row_norm yh ^ 2) <$> yh)) in
  let d_yh := if ignore_zeros && zero_row t then (λ _, 0) <$> d_yh else d_yh in
  let d_yh := if normalize then (λ x, x / INR n) <$> d_yh else d_yh in
  Ropp <$> d_yh.

(** The entry of [losses] for a cosine and the row of truths. *)
Definition row_loss (normalize ignore_zeros : bool) (n : nat) (cosine : R) (t : list R)
  : R :=
  let l := Rabs (cosine - 1) in
  let l := if ignore_zeros && zero_row t then 0 else l in
  if normalize then l / INR n else l.

Lemma cosine_rows (G T : list (list R)) :
  let yh := (λ r : list R, (λ x, x + epsilon) <$> r) <$> G in
  let y := (λ r : list R, (λ x, x + epsilon) <$> r) <$> T in
  zip_with Rdiv (zip_with row_dot yh y)
    (zip_with Rmult (row_norm <$> yh) (row_norm <$> y))
    = zip_with row_cosine G T.
Proof.
  cbv zeta. revert T. induction G as [ | g G IH ]; intros [ | t T ]; try reflexivity.
  simpl. f_equal. apply IH.
Qed.

Lemma Cosine_get_similarity_outcome self guesses truths :
  outcome (CosineDistance.get_similarity guesses truths) self =
    if bool_decide (shape guesses = shape truths) then
      inr (zip_with row_cosine (rows guesses) (rows truths))
    else inl (ValueError (msg_cosine_shapes (shape guesses) (shape truths))).
Proof.
  unfold outcome, CosineDistance.get_similarity, ret, raise.
  case_bool_decide; [ | reflexivity ].
  simpl. rewrite cosine_rows. reflexivity.
Qed.

Lemma gradient_rows normalize ignore_zeros n (G T : list (list R)) :
  let yh := (λ r : list R, (λ x, x + epsilon) <$> r) <$> G in
  let y := (λ r : list R, (λ x, x + epsilon) <$> r) <$> T in
  let norm_yh := row_norm <$> yh in
  let norm_y := row_norm <$> y in
  let mul_norms := zip_with Rmult norm_yh norm_y in
  let d_yh :=
    zip_with (zip_with Rminus)
      (div_col y mul_norms)
      (mul_col (zip_with row_cosine G T)
         (div_col yh ((λ x, x ^ 2) <$> norm_yh))) in
  let d_yh :=
    if ignore_zeros : bool
    then zip_with (λ (z : bool) (r : list R), if z then (λ _, 0) <$> r else r)
           (zero_row <$> T) d_yh
    else d_yh in
  let d_yh :=
    if normalize : bool
    then (λ r : list R, (λ x, x / INR n) <$> r) <$> d_yh
    else d_yh in
  (λ r : list R, Ropp <$> r) <$> d_yh
    = zip_with (row_gradient normalize ignore_zeros n) G T.
Proof.
  cbv zeta. revert T. induction G as [ | g G IH ]; intros [ | t T ].
  - destruct ignore_zeros, normalize; reflexivity.
  - destruct ignore_zeros, normalize; reflexivity.
  - destruct ignore_zeros, normalize; reflexivity.
  - specialize (IH T).
    destruct ignore_zeros, normalize;
      cbn [zip_with]; rewrite <- IH; reflexivity.
Qed.

Lemma Cosine_get_grad_outcome self guesses truths :
  outcome (CosineDistance.get_grad guesses truths) self =
    if bool_decide (shape guesses = shape truths) then
      inr (mk_Floats2d (ncols guesses)
             (zip_with (row_gradient (CosineDistance.normalize self)
                          (CosineDistance.ignore_zeros self) (nrows guesses))
                (rows guesses) (rows truths)))
    else inl (ValueError (msg_cosine_shapes (shape guesses) (shape truths))).
Proof.
  unfold outcome, CosineDistance.get_grad, bind, attr, ret, raise.
  case_bool_decide; [ | reflexivity ].
  simpl. rewrite cosine_rows. do 2 f_equal.
  rewrite <- gradient_rows. reflexivity.
Qed.

Lemma loss_rows normalize ignore_zeros n (cosine : list R) (T : list (list R)) :
  length cosine = length T →
  let losses := (λ c, Rabs (c - 1)) <$> cosine in
  let losses := if ignore_zeros : bool then zero_rows 0 (zero_row <$> T) losses
                else losses in
  (if normalize : bool then (λ x, x / INR n) <$> losses else losses)
    = zip_with (row_loss normalize ignore_zeros n) cosine T.
Proof.
  cbv zeta. unfold zero_rows.
  revert T. induction cosine as [ | c cosine IH ]; intros [ | t T ] Hlen;
    try discriminate.
  - destruct ignore_zeros, normalize; reflexivity.
  - specialize (IH T ltac:(simpl in Hlen; lia)).
    destruct ignore_zeros, normalize;
      cbn [zip_with]; rewrite <- IH; reflexivity.
Qed.

Lemma Cosine_losses_outcome self guesses truths :
  outcome (CosineDistance.losses guesses truths) self =
    match outcome (CosineDistance.get_similarity guesses truths) self with
    | inl e => inl e
    | inr cosine =>
        inr (zip_with (row_loss (CosineDistance.normalize self)
                         (CosineDistance.ignore_zeros self) (nrows guesses))
               cosine (rows truths))
    end.
Proof.
  rewrite Cosine_get_similarity_outcome. unfold CosineDistance.losses.
  case_bool_decide as Hshape; [ | reflexivity ].
  rewrite outcome_bind by apply Cosine_get_similarity_readonly.
  rewrite Cosine_get_similarity_outcome, bool_decide_eq_true_2 by assumption.
  unfold outcome, bind, attr, ret. simpl. f_equal.
  apply loss_rows. apply shape_eq in Hshape as [Hr _]. unfold nrows in Hr.
  rewrite length_zip_with. lia.
Qed.

Lemma Cosine_get_loss_outcome self guesses truths :
  outcome (CosineDistance.get_loss guesses truths) self =
    match outcome (CosineDistance.get_similarity guesses truths) self with
    | inl e => inl e
    | inr cosine =>
        inr (sum (zip_with (row_loss (CosineDistance.normalize self)
                              (CosineDistance.ignore_zeros self) (nrows guesses))
                    cosine (rows truths)))
    end.
Proof.
  unfold CosineDistance.get_loss.
  rewrite outcome_bind by apply Cosine_losses_readonly.
  rewrite Cosine_losses_outcome.
  destruct (outcome (CosineDistance.get_similarity guesses truths) self); reflexivity.
Qed.

(** ** Loss and gradient *)

Lemma epsilon_bounds : 0 < epsilon < 1.
Proof. unfold epsilon. lra. Qed.

Lemma row_norm_singleton x : row_norm [x] = Rabs x.
Proof.
  unfold row_norm. simpl.
  replace (x * (x * 1) + 0) with (Rsqr x) by (unfold Rsqr; ring).
  apply sqrt_Rsqr_abs.
Qed.

(** C1, for [CosineDistance] at guesses [[1]] and truths [[-1]]: the loss is
    2, but the gradient is [[0]], whose absolute values sum to 0. *)
Lemma cosine_loss_is_not_sum_of_gradient :
  let self := CosineDistance.__init__ true false in
  let guesses := mk_Floats2d 1 [[1]] in
  let truths := mk_Floats2d 1 [[-1]] in
  outcome (CosineDistance.get_loss guesses truths) self = inr 2
  ∧ outcome (CosineDistance.get_grad guesses truths) self = inr (mk_Floats2d 1 [[0]])
  ∧ total (map2d Rabs (mk_Floats2d 1 [[0]])) = 0.
Proof.
  cbv zeta. pose proof epsilon_bounds as He.
  assert (Hyh : row_norm (stabilized [1]) = 1 + epsilon).
  { unfold stabilized. simpl. rewrite row_norm_singleton. apply Rabs_pos_eq. lra. }
  assert (Hy : row_norm (stabilized [-1]) = 1 - epsilon).
  { unfold stabilized. simpl. rewrite row_norm_singleton, Rabs_left by lra. lra. }
  assert (Hcos : row_cosine [1] [-1] = -1).
  { unfold row_cosine. rewrite Hyh, Hy. unfold row_dot, stabilized. simpl.
    field. lra. }
  split; [ | split ].
  - rewrite Cosine_get_loss_outcome, Cosine_get_similarity_outcome.
    rewrite bool_decide_eq_true_2 by reflexivity.
    simpl. rewrite Hcos. unfold row_loss. simpl. f_equal.
    replace (-1 - 1) with (-2) by lra. rewrite Rabs_left by lra. lra.
  - rewrite Cosine_get_grad_outcome, bool_decide_eq_true_2 by reflexivity.
    simpl. do 3 f_equal.
    unfold row_gradient. cbv zeta. rewrite Hcos, Hyh, Hy.
    unfold stabilized. simpl. f_equal. field. lra.
  - unfold total. simpl. rewrite Rabs_R0. lra.
Qed.

(** C1, as the code has it: for [CategoricalCrossentropy] and [L2Distance],
    with any configuration and any inputs, [get_loss] returns the sum of the
    squares of the entries of the tensor [get_grad] returns, and raises what
    [get_grad] raises; for [CosineDistance], [get_loss] is computed from the
    cosines of [get_similarity], not from the gradient: it is the sum over
    the rows of [|cosine - 1|], replaced by 0 for a zero row of truths under
    [ignore_zeros] and divided by the batch size under [normalize]. *)
Theorem loss_from_gradient_or_similarity :
  (∀ self guesses truths missing,
     outcome (CCE.get_loss guesses truths missing) self =
       match outcome (CCE.get_grad guesses truths missing) self with
       | inl e => inl e
       | inr d_truth => inr (total (map2d (λ x, x ^ 2) d_truth))
       end)
  ∧ (∀ self guesses truths,
       outcome (L2Distance.get_loss guesses truths) self =
         match outcome (L2Distance.get_grad guesses truths) self with
         | inl e => inl e
         | inr d_truth => inr (total (map2d (λ x, x ^ 2) d_truth))
         end)
  ∧ (∀ self guesses truths,
       outcome (CosineDistance.get_loss guesses truths) self =
         match outcome (CosineDistance.get_similarity guesses truths) self with
         | inl e => inl e
         | inr cosine =>
             inr (sum (zip_with
                         (λ c t,
                            let l := Rabs (c - 1) in
                            let l := if CosineDistance.ignore_zeros self && zero_row t
                                     then 0 else l in
                            if CosineDistance.normalize self
                            then l / INR (nrows guesses) else l)
                         cosine (rows truths)))
         end).
Proof.
  split; [ | split ].
  - apply CCE_get_loss_outcome.
  - apply L2_get_loss_outcome.
  - apply Cosine_get_loss_outcome.
Qed.

(** ** Cosine of equal rows, and zero rows of truths *)

Lemma sum_cons x (l : list R) : sum (x :: l) = x + sum l.
Proof. reflexivity. Qed.

Lemma sum_squares_nonneg (l : list R) : 0 <= sum ((λ x, x ^ 2) <$> l).
Proof.
  induction l as [ | x l IH ]; [ simpl; lra | ].
  rewrite fmap_cons, sum_cons. pose proof (pow2_ge_0 x). lra.
Qed.

Lemma sum_squares_pos (l : list R) :
  (∃ x, x ∈ l ∧ x ≠ 0) → 0 < sum ((λ x, x ^ 2) <$> l).
Proof.
  intros (x & Hin & Hx). induction l as [ | y l IH ]; [ inversion Hin | ].
  rewrite fmap_cons, sum_cons. pose proof (sum_squares_nonneg l) as Hl.
  pose proof (pow2_ge_0 y) as Hy.
  apply elem_of_cons in Hin as [<- | Hin].
  - pose proof (Rsqr_pos_lt x Hx) as Hsq. rewrite Rsqr_pow2 in Hsq. lra.
  - specialize (IH Hin). lra.
Qed.

Lemma row_dot_self (l : list R) : row_dot l l = sum ((λ x, x ^ 2) <$> l).
Proof.
  unfold row_dot. induction l as [ | x l IH ]; [ reflexivity | ].
  cbn [zip_with]. rewrite fmap_cons, !sum_cons, IH. ring.
Qed.

(** Equal rows that the constant does not shift to the zero vector have
    cosine 1. *)
Lemma row_cosine_same (r : list R) :
  (∃ x, x ∈ r ∧ x + epsilon ≠ 0) → row_cosine r r = 1.
Proof.
  intros (x & Hin & Hx). unfold row_cosine, row_norm.
  rewrite row_dot_self.
  assert (Hpos : 0 < sum ((λ x, x ^ 2) <$> stabilized r)).
  { apply sum_squares_pos. exists (x + epsilon). split; [ | exact Hx ].
    unfold stabilized. apply list_elem_of_fmap. eauto. }
  rewrite sqrt_sqrt by lra. apply Rdiv_diag. lra.
Qed.

(** The test for a zero row holds of the rows of zeros and of no other. *)
Lemma zero_row_true (r : list R) : zero_row r = true ↔ Forall (λ x, x = 0) r.
Proof.
  unfold zero_row. rewrite bool_decide_eq_true.
  assert (Hnonneg : ∀ l, 0 <= sum (Rabs <$> l)).
  { induction l as [ | y l IH ]; [ simpl; lra | ].
    rewrite fmap_cons, sum_cons. pose proof (Rabs_pos y). lra. }
  induction r as [ | x r IH ].
  - split; [ constructor | reflexivity ].
  - rewrite fmap_cons, sum_cons.
    pose proof (Rabs_pos x) as Hx. specialize (Hnonneg r). split.
    + intros Hsum. assert (Hax : Rabs x = 0) by lra. constructor.
      * destruct (Req_dec_T x 0) as [ | Hne ]; [ assumption | ].
        apply Rabs_no_R0 in Hne. contradiction.
      * apply IH. lra.
    + intros [-> Hr]%Forall_cons. apply IH in Hr. rewrite Rabs_R0. lra.
Qed.









(** * Further properties of the kernels *)

(** ** The sequence kernel, step by step *)

(** The outcomes of the steps of a loop, taken in order: the values of all
    of them, or the exception of the first that raises. *)
Fixpoint collect {A} (steps : list (result A)) : result (list A) :=
  match steps with
  | [] => inr []
  | inl e :: _ => inl e
  | inr a :: rest =>
      match collect rest with
      | inl e => inl e
      | inr values => inr (a :: values)
      end
  end.

Lemma collect_returns {A} (steps : list (result A)) (values : list A) :
  collect steps = inr values ↔ steps = inr <$> values.
Proof.
  revert values. induction steps as [ | [e | a] steps IH ]; intros values; simpl.
  - split; [ intros [= <-]; reflexivity | ].
    destruct values; [ reflexivity | discriminate ].
  - split; [ discriminate | ]. destruct values; discriminate.
  - destruct (collect steps) as [e | vs] eqn:Hc.
    + split; [ discriminate | ].
      destruct values as [ | v values ]; [ discriminate | ].
      rewrite fmap_cons. intros [= -> Hsteps].
      apply IH in Hsteps. discriminate.
    + split.
      * intros [= <-]. rewrite fmap_cons. f_equal. apply IH. reflexivity.
      * destruct values as [ | v values ]; [ discriminate | ].
        rewrite fmap_cons. intros [= -> Hsteps].
        apply IH in Hsteps. congruence.
Qed.

Lemma collect_raises {A} (steps : list (result A)) k e (values : list A) :
  take k steps = inr <$> values → steps !! k = Some (inl e) →
  collect steps = inl e.
Proof.
  revert steps values. induction k as [ | k IH ]; intros steps values Htake Hk.
  - destruct steps as [ | [e' | a] steps ]; simpl in Hk; try discriminate.
    injection Hk as <-. reflexivity.
  - destruct steps as [ | s steps ]; [ discriminate | ].
    destruct values as [ | v values ]; [ discriminate | ].
    rewrite fmap_cons in Htake. cbn [take] in Htake. injection Htake as -> Htake.
    simpl in Hk. cbn [collect]. rewrite (IH steps values Htake Hk). reflexivity.
Qed.

(** A step of the two loops: the inner kernel on one pair. *)
Definition grad_step (self : SeqCCE.t) (yh : Floats2d) (y : ndarray) : result Floats2d :=
  outcome (CCE.get_grad yh (TruthArray y) None) (SeqCCE.cc self).

Definition loss_step (self : SeqCCE.t) (yh : Floats2d) (y : ndarray) : result R :=
  outcome (CCE.get_loss yh (TruthArray y) None) (SeqCCE.cc self).

Lemma SeqCCE_grad_loop_outcome self steps d_scores :
  outcome (SeqCCE.grad_loop steps d_scores) self =
    match collect ((λ '(yh, y), grad_step self yh y) <$> steps) with
    | inl e => inl e
    | inr ds => inr (d_scores ++ ds)
    end.
Proof.
  revert d_scores. induction steps as [ | [yh y] steps IH ]; intros d_scores.
  - simpl. rewrite app_nil_r. reflexivity.
  - rewrite SeqCCE_grad_loop_cons, fmap_cons. cbn [collect].
    fold (grad_step self yh y). destruct (grad_step self yh y) as [e | d];
      [ reflexivity | ].
    rewrite IH. destruct (collect _) as [e | ds]; [ reflexivity | ].
    rewrite <- app_assoc. reflexivity.
Qed.

Lemma SeqCCE_loss_loop_outcome self steps losses :
  outcome (SeqCCE.loss_loop steps losses) self =
    match collect ((λ '(yh, y), loss_step self yh y) <$> steps) with
    | inl e => inl e
    | inr ls => inr (losses ++ ls)
    end.
Proof.
  revert losses. induction steps as [ | [yh y] steps IH ]; intros losses.
  - simpl. rewrite app_nil_r. reflexivity.
  - rewrite SeqCCE_loss_loop_cons, fmap_cons. cbn [collect].
    fold (loss_step self yh y). destruct (loss_step self yh y) as [e | l];
      [ reflexivity | ].
    rewrite IH. destruct (collect _) as [e | ls]; [ reflexivity | ].
    rewrite <- app_assoc. reflexivity.
Qed.

Lemma fmap_zip_uncurry {A B C} (f : A → B → C) (l : list A) (k : list B) :
  (λ '(a, b), f a b) <$> zip l k = zip_with f l k.
Proof.
  revert k. induction l as [ | a l IH ]; intros [ | b k ]; try reflexivity.
  simpl. f_equal. apply IH.
Qed.

Lemma SeqCCE_get_grad_outcome self guesses truths :
  outcome (SeqCCE.get_grad guesses truths) self =
    if bool_decide (length guesses = length truths)
    then collect (zip_with (grad_step self) guesses truths)
    else inl (ValueError msg_seq_length).
Proof.
  unfold SeqCCE.get_grad. case_bool_decide; [ | reflexivity ].
  rewrite SeqCCE_grad_loop_outcome, fmap_zip_uncurry.
  destruct (collect _); reflexivity.
Qed.

Lemma SeqCCE_get_loss_outcome self guesses truths :
  outcome (SeqCCE.get_loss guesses truths) self =
    collect (zip_with (loss_step self) guesses truths).
Proof.
  unfold SeqCCE.get_loss.
  rewrite SeqCCE_loss_loop_outcome, fmap_zip_uncurry.
  destruct (collect _); reflexivity.
Qed.

(** X1: the sequence kernel returns a list of gradients exactly when the two
    lists have one length and every step of the inner kernel returns, and
    the list holds the steps' gradients in their order; [get_loss] returns
    exactly when every step of the zipped lists returns, with the steps'
    losses in their order. *)
Theorem sequence_kernel_steps :
  ∀ (self : SeqCCE.t) guesses truths,
    (∀ grads,
       outcome (SeqCCE.get_grad guesses truths) self = inr grads
       ↔ length guesses = length truths
         ∧ zip_with (grad_step self) guesses truths = inr <$> grads)
    ∧ (∀ losses,
         outcome (SeqCCE.get_loss guesses truths) self = inr losses
         ↔ zip_with (loss_step self) guesses truths = inr <$> losses).
Proof.
  intros self guesses truths. split.
  - intros grads. rewrite SeqCCE_get_grad_outcome. case_bool_decide as Hlen.
    + rewrite collect_returns. tauto.
    + split; [ discriminate | tauto ].
  - intros losses. rewrite SeqCCE_get_loss_outcome. apply collect_returns.
Qed.

(** X2: when the lists have one length, the steps before step [k] return and
    step [k] raises, the sequence kernel raises the exception of step [k],
    from [get_grad] and from [get_loss] alike. *)
Theorem sequence_kernel_first_error :
  ∀ (self : SeqCCE.t) guesses truths k,
    length guesses = length truths →
    (∀ e grads,
       take k (zip_with (grad_step self) guesses truths) = inr <$> grads →
       zip_with (grad_step self) guesses truths !! k = Some (inl e) →
       outcome (SeqCCE.get_grad guesses truths) self = inl e)
    ∧ (∀ e losses,
         take k (zip_with (loss_step self) guesses truths) = inr <$> losses →
         zip_with (loss_step self) guesses truths !! k = Some (inl e) →
         outcome (SeqCCE.get_loss guesses truths) self = inl e).
Proof.
  intros self guesses truths k Hlen. split.
  - intros e grads Htake Hk.
    rewrite SeqCCE_get_grad_outcome, bool_decide_eq_true_2 by assumption.
    eapply collect_raises; eassumption.
  - intros e losses Htake Hk. rewrite SeqCCE_get_loss_outcome.
    eapply collect_raises; eassumption.
Qed.

Lemma sequence_kernel_first_error_witness :
  outcome (SeqCCE.get_grad
             [mk_Floats2d 2 [[1; 0]]; mk_Floats2d 2 [[0; 1]]]
             [FloatsArr (mk_Floats2d 2 [[0; 1]]); FloatsArr (mk_Floats2d 3 [[0; 1; 0]])])
          (SeqCCE.__init__ false None)
    = inl (ValueError (msg_cce_shapes (1, 2)%nat (1, 3)%nat)).
Proof.
  destruct (sequence_kernel_first_error (SeqCCE.__init__ false None)
              [mk_Floats2d 2 [[1; 0]]; mk_Floats2d 2 [[0; 1]]]
              [FloatsArr (mk_Floats2d 2 [[0; 1]]); FloatsArr (mk_Floats2d 3 [[0; 1; 0]])]
              1%nat eq_refl) as [Hgrad _].
  apply (Hgrad _ [mk_Floats2d 2 [[1 - 0; 0 - 1]]]).
  - cbn [zip_with take]. unfold grad_step.
    rewrite CCE_get_grad_outcome, CCE_convert_array.
    rewrite bool_decide_eq_true_2 by reflexivity. reflexivity.
  - cbn [zip_with lookup list_lookup]. unfold grad_step.
    rewrite CCE_get_grad_outcome, CCE_convert_array.
    rewrite bool_decide_eq_false_2 by discriminate. reflexivity.
Defined.

Lemma zip_with_fmap_result {A B C D} (f : A → B → C) (g : C → D)
    (l : list A) (k : list B) :
  zip_with (λ a b, g (f a b)) l k = g <$> zip_with f l k.
Proof.
  revert k. induction l as [ | a l IH ]; intros [ | b k ]; try reflexivity.
  simpl. f_equal. apply IH.
Qed.

(** The sum of the squares of the entries, [(d_truth ** 2).sum()]. *)
Definition sum_of_squares (d_truth : Floats2d) : R :=
  total (map2d (λ x, x ^ 2) d_truth).

Lemma loss_step_from_grad_step self yh y :
  loss_step self yh y =
    match grad_step self yh y with
    | inl e => inl e
    | inr d => inr (sum_of_squares d)
    end.
Proof. apply CCE_get_loss_outcome. Qed.

Lemma SeqCCE_call_outcome self guesses truths :
  outcome (SeqCCE.__call__ guesses truths) self =
    match outcome (SeqCCE.get_grad guesses truths) self with
    | inl e => inl e
    | inr grads =>
        match outcome (SeqCCE.get_loss guesses truths) self with
        | inl e => inl e
        | inr losses => inr (grads, losses)
        end
    end.
Proof.
  unfold SeqCCE.__call__.
  rewrite outcome_bind by apply SeqCCE_get_grad_readonly.
  destruct (outcome (SeqCCE.get_grad guesses truths) self) as [e | grads];
    [ reflexivity | ].
  rewrite outcome_bind by apply SeqCCE_get_loss_readonly.
  destruct (outcome (SeqCCE.get_loss guesses truths) self); reflexivity.
Qed.

(** X3: whenever the sequence kernel's [get_grad] returns a list of
    gradients, its [get_loss] returns, step for step, the sums of the squares
    of their entries, and [__call__] returns the two lists. *)
Theorem sequence_losses_from_gradients :
  ∀ (self : SeqCCE.t) guesses truths grads,
    outcome (SeqCCE.get_grad guesses truths) self = inr grads →
    outcome (SeqCCE.get_loss guesses truths) self = inr (sum_of_squares <$> grads)
    ∧ outcome (SeqCCE.__call__ guesses truths) self
      = inr (grads, sum_of_squares <$> grads).
Proof.
  intros self guesses truths grads Hgrads.
  assert (Hloss : outcome (SeqCCE.get_loss guesses truths) self
                  = inr (sum_of_squares <$> grads)).
  { rewrite SeqCCE_get_grad_outcome in Hgrads.
    case_bool_decide; [ | discriminate ].
    apply collect_returns in Hgrads.
    rewrite SeqCCE_get_loss_outcome. apply collect_returns.
    rewrite (zip_with_ext (loss_step self)
               (λ yh y, match grad_step self yh y with
                        | inl e => inl e
                        | inr d => inr (sum_of_squares d)
                        end) guesses guesses truths truths
               (loss_step_from_grad_step self) eq_refl eq_refl).
    etransitivity;
      [ apply (zip_with_fmap_result (grad_step self)
                 (λ r, match r with
                       | inl e => inl e
                       | inr d => inr (sum_of_squares d)
                       end)) | ].
    rewrite Hgrads, <- !list_fmap_compose. reflexivity. }
  split; [ exact Hloss | ].
  rewrite SeqCCE_call_outcome, Hgrads, Hloss. reflexivity.
Qed.

Lemma sequence_losses_from_gradients_witness :
  outcome (SeqCCE.get_loss [mk_Floats2d 2 [[1; 0]]] [FloatsArr (mk_Floats2d 2 [[0; 1]])])
          (SeqCCE.__init__ false None)
    = inr [sum_of_squares (mk_Floats2d 2 [[1 - 0; 0 - 1]])].
Proof.
  apply (sequence_losses_from_gradients (SeqCCE.__init__ false None)
           [mk_Floats2d 2 [[1; 0]]] [FloatsArr (mk_Floats2d 2 [[0; 1]])]
           [mk_Floats2d 2 [[1 - 0; 0 - 1]]]).
  rewrite SeqCCE_get_grad_outcome, bool_decide_eq_true_2 by reflexivity.
  cbn [zip_with collect]. unfold grad_step.
  rewrite CCE_get_grad_outcome, CCE_convert_array.
  rewrite bool_decide_eq_true_2 by reflexivity. reflexivity.
Defined.

(** ** The combined call *)

Lemma L2_call_outcome self guesses truths :
  outcome (L2Distance.__call__ guesses truths) self =
    match outcome (L2Distance.get_grad guesses truths) self with
    | inl e => inl e
    | inr grad =>
        match outcome (L2Distance.get_loss guesses truths) self with
        | inl e => inl e
        | inr loss => inr (grad, loss)
        end
    end.
Proof.
  unfold L2Distance.__call__.
  rewrite outcome_bind by apply L2_get_grad_readonly.
  destruct (outcome (L2Distance.get_grad guesses truths) self) as [e | grad];
    [ reflexivity | ].
  rewrite outcome_bind by apply L2_get_loss_readonly.
  destruct (outcome (L2Distance.get_loss guesses truths) self); reflexivity.
Qed.

Lemma Cosine_call_outcome self guesses truths :
  outcome (CosineDistance.__call__ guesses truths) self =
    match outcome (CosineDistance.get_grad guesses truths) self with
    | inl e => inl e
    | inr grad =>
        match outcome (CosineDistance.get_loss guesses truths) self with
        | inl e => inl e
        | inr loss => inr (grad, loss)
        end
    end.
Proof.
  unfold CosineDistance.__call__.
  rewrite outcome_bind by apply Cosine_get_grad_readonly.
  destruct (outcome (CosineDistance.get_grad guesses truths) self) as [e | grad];
    [ reflexivity | ].
  rewrite outcome_bind by apply Cosine_get_loss_readonly.
  destruct (outcome (CosineDistance.get_loss guesses truths) self); reflexivity.
Qed.

(** The pair a combined call is to return, from what [get_grad] and
    [get_loss] do on the same arguments. *)
Definition both {A B} (grad : result A) (loss : result B) : result (A * B) :=
  match grad with
  | inl e => inl e
  | inr g =>
      match loss with
      | inl e => inl e
      | inr l => inr (g, l)
      end
  end.

(** X4: for each of the four kernels, [__call__] returns the pair of what
    [get_grad] and [get_loss] return on the same arguments, and raises what
    the first of them to raise raises; [CategoricalCrossentropy], which
    computes the loss from the one gradient, agrees with the others in
    this; and the sequence kernel's [__call__] raises the length error on
    lists of different lengths, where its [get_loss] alone would not. *)
Theorem combined_call_agrees :
  (∀ self guesses truths missing,
     outcome (CCE.__call__ guesses truths missing) self
       = both (outcome (CCE.get_grad guesses truths missing) self)
              (outcome (CCE.get_loss guesses truths missing) self))
  ∧ (∀ self guesses truths,
       outcome (SeqCCE.__call__ guesses truths) self
         = both (outcome (SeqCCE.get_grad guesses truths) self)
                (outcome (SeqCCE.get_loss guesses truths) self))
  ∧ (∀ self guesses truths,
       length guesses ≠ length truths →
       outcome (SeqCCE.__call__ guesses truths) self = inl (ValueError msg_seq_length))
  ∧ (∀ self guesses truths,
       outcome (L2Distance.__call__ guesses truths) self
         = both (outcome (L2Distance.get_grad guesses truths) self)
                (outcome (L2Distance.get_loss guesses truths) self))
  ∧ (∀ self guesses truths,
       outcome (CosineDistance.__call__ guesses truths) self
         = both (outcome (CosineDistance.get_grad guesses truths) self)
                (outcome (CosineDistance.get_loss guesses truths) self)).
Proof.
  split; [ | split; [ | split; [ | split ] ] ].
  - intros self guesses truths missing.
    rewrite CCE_call_outcome, CCE_get_loss_outcome. unfold both.
    destruct (outcome (CCE.get_grad guesses truths missing) self); reflexivity.
  - intros. apply SeqCCE_call_outcome.
  - intros self guesses truths Hlen.
    rewrite SeqCCE_call_outcome, SeqCCE_get_grad_outcome.
    rewrite bool_decide_eq_false_2 by assumption. reflexivity.
  - intros. apply L2_call_outcome.
  - intros. apply Cosine_call_outcome.
Qed.

Lemma combined_call_agrees_witness :
  outcome (SeqCCE.__call__ [mk_Floats2d 2 [[1; 0]]] []) (SeqCCE.__init__ true None)
    = inl (ValueError msg_seq_length).
Proof.
  destruct combined_call_agrees as (_ & _ & Hlen & _).
  apply Hlen. simpl. lia.
Defined.

(** ** The mask built from row indices *)

(** An index that an axis of length [n] admits, and the row it selects. *)
Definition in_range (n : nat) (i : Z) : Prop :=
  (- Z.of_nat n <= i < Z.of_nat n)%Z.

Definition selects (n : nat) (i : Z) (r : nat) : Prop :=
  i = Z.of_nat r ∨ i = (Z.of_nat r - Z.of_nat n)%Z.

Lemma axis_index_in_range n i :
  in_range n i →
  ∃ r, axis_index n i = inr r ∧ (r < n)%nat ∧ ∀ r', (r' < n)%nat → selects n i r' ↔ r' = r.
Proof.
  unfold in_range, axis_index, selects. intros Hi.
  destruct (Z.leb_spec 0 i) as [Hpos | Hneg].
  - replace (i <? Z.of_nat n)%Z with true by (symmetry; apply Z.ltb_lt; lia).
    simpl. exists (Z.to_nat i). split; [ reflexivity | ]. split; [ lia | ].
    intros r' Hr'. lia.
  - simpl.
    replace (- Z.of_nat n <=? i)%Z with true by (symmetry; apply Z.leb_le; lia).
    replace (i <? 0)%Z with true by (symmetry; apply Z.ltb_lt; lia).
    simpl. exists (Z.to_nat (i + Z.of_nat n)). split; [ reflexivity | ].
    split; [ lia | ]. intros r' Hr'. lia.
Qed.

Lemma axis_index_out_of_range n i :
  ¬ in_range n i → axis_index n i = inl (IndexError i).
Proof.
  unfold in_range, axis_index. intros Hi.
  destruct (Z.leb_spec 0 i); destruct (Z.ltb_spec i (Z.of_nat n));
    destruct (Z.leb_spec (- Z.of_nat n) i); destruct (Z.ltb_spec i 0);
    simpl; try reflexivity; lia.
Qed.

Lemma in_range_dec n i : {in_range n i} + {¬ in_range n i}.
Proof.
  unfold in_range.
  destruct (Z_le_dec (- Z.of_nat n) i); destruct (Z_lt_dec i (Z.of_nat n));
    [ left | right | right | right ]; lia.
Qed.

Lemma axis_indices_in_range n idx :
  Forall (in_range n) idx →
  ∃ ks, axis_indices n idx = inr ks
        ∧ ∀ r, (r < n)%nat → r ∈ ks ↔ ∃ i, i ∈ idx ∧ selects n i r.
Proof.
  induction 1 as [ | i idx Hi _ (ks & Hks & Hsel) ].
  - exists []. split; [ reflexivity | ]. intros r _. split.
    + intros Hin. inversion Hin.
    + intros (i & Hin & _). inversion Hin.
  - destruct (axis_index_in_range n i Hi) as (k & Hk & Hlt & Hone).
    exists (k :: ks). split; [ simpl; rewrite Hk, Hks; reflexivity | ].
    intros r Hr. rewrite elem_of_cons, Hsel by assumption. split.
    + intros [-> | (j & Hj & Hs) ].
      * exists i. split; [ left | apply Hone; auto ].
      * exists j. split; [ right; assumption | assumption ].
    + intros (j & [-> | Hj]%elem_of_cons & Hs).
      * left. apply Hone; assumption.
      * right. eauto.
Qed.

Lemma axis_indices_out_of_range n idx :
  ¬ Forall (in_range n) idx →
  ∃ i, i ∈ idx ∧ ¬ in_range n i ∧ axis_indices n idx = inl (IndexError i).
Proof.
  induction idx as [ | i idx IH ]; intros Hnot.
  - exfalso. apply Hnot. constructor.
  - destruct (in_range_dec n i) as [Hi | Hi].
    + destruct IH as (j & Hj & Hout & Hraise).
      { intros Hall. apply Hnot. constructor; assumption. }
      exists j. split; [ right; assumption | ]. split; [ assumption | ].
      destruct (axis_index_in_range n i Hi) as (k & Hk & _).
      simpl. rewrite Hk, Hraise. reflexivity.
    + exists i. split; [ left | ]. split; [ assumption | ].
      simpl. rewrite (axis_index_out_of_range n i Hi). reflexivity.
Qed.


(** The mask from row indices has the shape asked for. *)
Lemma make_mask_ints_shape idx s mask :
  _make_mask (MissingInts idx) s = inr mask → shape mask = s ∧ wf mask.
Proof.
  unfold _make_mask. destruct (axis_indices (fst s) idx) as [e | ks];
    [ discriminate | ].
  intros [= <-]. unfold shape, nrows, wf. simpl.
  rewrite length_fmap, length_seq. split; [ destruct s; reflexivity | ].
  apply Forall_fmap, Forall_forall. intros r _. simpl. apply length_replicate.
Qed.

(** X5: from a list of row indices all within [-n, n), [_make_mask] builds a
    well-formed mask of the shape asked for, whose row [r] is 1 throughout
    when some index selects it (as [r], or from the end as [r - n]) and 0
    throughout otherwise; if some index is outside [-n, n), it raises the
    [IndexError] of such an index instead. *)
Theorem make_mask_from_row_indices :
  ∀ idx (n c : nat),
    (Forall (in_range n) idx →
       ∃ mask,
         _make_mask (MissingInts idx) (n, c) = inr mask
         ∧ shape mask = (n, c) ∧ wf mask
         ∧ ∀ r, (r < n)%nat →
             ((∃ i, i ∈ idx ∧ selects n i r) → rows mask !! r = Some (replicate c 1))
             ∧ (¬ (∃ i, i ∈ idx ∧ selects n i r) → rows mask !! r = Some (replicate c 0)))
    ∧ (¬ Forall (in_range n) idx →
         ∃ i, i ∈ idx ∧ ¬ in_range n i
              ∧ _make_mask (MissingInts idx) (n, c) = inl (IndexError i)).
Proof.
  intros idx n c. split.
  - intros Hall. destruct (axis_indices_in_range n idx Hall) as (ks & Hks & Hsel).
    assert (Hmask : _make_mask (MissingInts idx) (n, c)
                    = inr (mk_Floats2d c
                             ((λ r, replicate c (if bool_decide (r ∈ ks) then 1 else 0))
                                <$> seq 0 n)))
      by (unfold _make_mask; simpl; rewrite Hks; reflexivity).
    eexists. split; [ exact Hmask | ].
    destruct (make_mask_ints_shape _ _ _ Hmask) as [Hshape Hwf].
    split; [ exact Hshape | ]. split; [ exact Hwf | ].
    intros r Hr. simpl. rewrite list_lookup_fmap, lookup_seq_lt by assumption.
    simpl. split.
    + intros Hsome. rewrite bool_decide_eq_true_2; [ reflexivity | ].
      apply Hsel; assumption.
    + intros Hnone. rewrite bool_decide_eq_false_2; [ reflexivity | ].
      intros Hin. apply Hnone, Hsel; assumption.
  - intros Hnot. destruct (axis_indices_out_of_range n idx Hnot) as (i & Hi & Hout & Hraise).
    exists i. split; [ assumption | ]. split; [ assumption | ].
    unfold _make_mask. simpl. rewrite Hraise. reflexivity.
Qed.

Lemma make_mask_from_row_indices_witness :
  (∃ mask, _make_mask (MissingInts [-1]%Z) (2, 3)%nat = inr mask
           ∧ rows mask !! 0%nat = Some [0; 0; 0]
           ∧ rows mask !! 1%nat = Some [1; 1; 1])
  ∧ ∃ i, _make_mask (MissingInts [0; 2]%Z) (2, 3)%nat = inl (IndexError i).
Proof.
  destruct (make_mask_from_row_indices [-1]%Z 2 3) as [Hin _].
  destruct (make_mask_from_row_indices [0; 2]%Z 2 3) as [_ Hout].
  split.
  - destruct Hin as (mask & Hmask & _ & _ & Hrows).
    { repeat constructor; unfold in_range; lia. }
    exists mask. split; [ exact Hmask | ]. split.
    + apply (Hrows 0%nat); [ lia | ].
      intros (i & Hi & Hs). apply list_elem_of_singleton in Hi as ->.
      unfold selects in Hs. lia.
    + apply (Hrows 1%nat); [ lia | ].
      exists (-1)%Z. split; [ left | ]. unfold selects. lia.
  - destruct Hout as (i & _ & _ & Hraise).
    + intros Hall. apply Forall_cons in Hall as [_ Hall].
      apply Forall_cons in Hall as [H2 _]. unfold in_range in H2. lia.
    + exists i. exact Hraise.
Defined.

(** ** The shape of a gradient *)

Lemma wf_zip2d f (a b : Floats2d) :
  wf a → wf b → shape a = shape b → wf (zip2d f a b).
Proof.
  intros Ha Hb [Hr Hc]%shape_eq. unfold wf, zip2d in *. simpl.
  apply Forall_forall. intros row Hrow.
  apply list_elem_of_lookup in Hrow as [i Hi].
  apply lookup_zip_with_Some in Hi as (x & y & -> & Hx & Hy).
  rewrite length_zip_with.
  pose proof (Forall_lookup_1 _ _ _ _ Ha Hx) as Hlx.
  pose proof (Forall_lookup_1 _ _ _ _ Hb Hy) as Hly.
  simpl in *. lia.
Qed.

Lemma stretch_length {A} (n : nat) (l : list A) :
  length l = n ∨ length l = 1%nat → length (stretch n l) = n.
Proof.
  intros [Hn | H1].
  - rewrite stretch_same by assumption. assumption.
  - destruct l as [ | x [ | y l ] ]; try discriminate. simpl. apply length_replicate.
Qed.

Lemma stretch_elem {A} (n : nat) (l : list A) x :
  x ∈ stretch n l → x ∈ l.
Proof.
  destruct l as [ | y [ | z l ] ]; simpl; try tauto.
  intros Hin. apply elem_of_replicate in Hin as [-> _]. left.
Qed.

Lemma broadcast_to_wf (t : Floats2d) s t' :
  wf t → broadcast_to t s = inr t' → shape t' = s ∧ wf t'.
Proof.
  unfold broadcast_to. intros Hwf.
  destruct (_ && _) eqn:Hcheck; [ | discriminate ]. intros [= <-].
  apply andb_true_iff in Hcheck as [Hr Hc].
  apply orb_true_iff in Hr. apply orb_true_iff in Hc.
  rewrite !Nat.eqb_eq in Hr, Hc.
  unfold shape, nrows, wf in *. simpl. split.
  - rewrite length_fmap, stretch_length by assumption. destruct s; reflexivity.
  - apply Forall_fmap, Forall_forall. intros row Hrow%stretch_elem. simpl.
    apply stretch_length.
    rewrite (proj1 (Forall_forall _ _) Hwf row Hrow). assumption.
Qed.

Lemma imul_wf (a b d : Floats2d) :
  wf a → wf b → imul a b = inr d → shape d = shape a ∧ wf d.
Proof.
  intros Ha Hb. unfold imul.
  destruct (broadcast_to b (shape a)) as [e | b'] eqn:Hb'; [ discriminate | ].
  intros [= <-]. destruct (broadcast_to_wf _ _ _ Hb Hb') as [Hshape Hwf].
  split; [ apply shape_zip2d; congruence | apply wf_zip2d; congruence ].
Qed.

(** Truths and masks whose dense tensors are well-formed. *)
Definition truths_wf (truths : Truths) : Prop :=
  match truths with
  | TruthArray (FloatsArr dense) => wf dense
  | _ => True
  end.

Definition missing_wf (missing : option Missing) : Prop :=
  match missing with
  | Some (MissingFloats m) => wf m
  | _ => True
  end.

Lemma CCE_convert_truths_wf self truths guesses target :
  truths_wf truths →
  outcome (CCE.convert_truths truths guesses) self = inr target → wf target.
Proof.
  intros Hwf.
  destruct truths as [ [labels | dense] | labels | [ | label labels] ].
  - intros [= <-]. apply to_categorical_wf.
  - intros [= <-]. exact Hwf.
  - intros [= <-]. apply to_categorical_wf.
  - intros [= <-]. apply to_categorical_wf.
  - unfold outcome, CCE.convert_truths, bind, attr, raise, call, ret.
    destruct (CCE.names self); [ | discriminate ].
    destruct (CCE._name_to_i self) as [table | ]; [ | discriminate ].
    destruct (lookup_names table (label :: labels)); [ discriminate | ].
    intros [= <-]. apply to_categorical_wf.
Qed.

Lemma masked_difference_wf guesses target missing difference :
  wf guesses → wf target → shape guesses = shape target → missing_wf missing →
  masked_difference guesses target missing = inr difference →
  shape difference = shape guesses ∧ wf difference.
Proof.
  intros Hg Ht Hshape Hm. unfold masked_difference.
  assert (Hd : shape (zip2d Rminus guesses target) = shape guesses
               ∧ wf (zip2d Rminus guesses target))
    by (split; [ apply shape_zip2d | apply wf_zip2d ]; assumption).
  destruct missing as [ missing | ]; [ | intros [= <-]; exact Hd ].
  destruct (_make_mask missing (shape guesses)) as [e | mask] eqn:Hmask;
    [ discriminate | ].
  assert (Hmwf : wf mask).
  { destruct missing as [m | idx | m].
    - injection Hmask as <-. exact Hm.
    - eapply make_mask_ints_shape, Hmask.
    - discriminate Hmask. }
  intros Himul. apply imul_wf in Himul as [Hs Hw];
    [ | apply Hd | apply wf_map2d, Hmwf ].
  split; [ | exact Hw ]. rewrite Hs. apply Hd.
Qed.

(** X6: a gradient that [CategoricalCrossentropy.get_grad] returns for
    well-formed guesses, truths and mask is a well-formed tensor of the
    guesses' shape, whether or not a mask is given (and broadcast) and the
    batch size divided by. *)
Theorem cce_gradient_has_guesses_shape :
  ∀ (self : CCE.t) guesses truths missing grad,
    wf guesses → truths_wf truths → missing_wf missing →
    outcome (CCE.get_grad guesses truths missing) self = inr grad →
    shape grad = shape guesses ∧ wf grad.
Proof.
  intros self guesses truths missing grad Hg Ht Hm.
  rewrite CCE_get_grad_outcome.
  destruct (outcome (CCE.convert_truths truths guesses) self) as [e | target] eqn:Hc;
    [ discriminate | ].
  apply CCE_convert_truths_wf in Hc; [ | exact Ht ].
  case_bool_decide as Hshape; [ | discriminate ].
  destruct (masked_difference guesses target missing) as [e | d] eqn:Hd;
    [ discriminate | ].
  apply masked_difference_wf in Hd as [Hs Hw]; try assumption.
  intros [= <-]. destruct (CCE.normalize self).
  - unfold div_batch. rewrite shape_map2d. split; [ exact Hs | apply wf_map2d, Hw ].
  - split; assumption.
Qed.

Lemma cce_gradient_has_guesses_shape_witness :
  ∃ grad,
    outcome (CCE.get_grad (mk_Floats2d 2 [[1; 0]; [0; 1]])
               (TruthArray (IntsArr [1; 0]%Z))
               (Some (MissingFloats (mk_Floats2d 2 [[0; 1]]))))
            (CCE.__init__ true None) = inr grad
    ∧ shape grad = (2, 2)%nat ∧ wf grad.
Proof.
  eexists. split.
  - rewrite CCE_get_grad_outcome, CCE_convert_array.
    rewrite bool_decide_eq_true_2 by reflexivity. reflexivity.
  - apply (cce_gradient_has_guesses_shape (CCE.__init__ true None)
             (mk_Floats2d 2 [[1; 0]; [0; 1]]) (TruthArray (IntsArr [1; 0]%Z))
             (Some (MissingFloats (mk_Floats2d 2 [[0; 1]])))).
    + repeat constructor.
    + exact I.
    + repeat constructor.
    + rewrite CCE_get_grad_outcome, CCE_convert_array.
      rewrite bool_decide_eq_true_2 by reflexivity. reflexivity.
Defined.

Lemma row_gradient_length normalize ignore_zeros n (g t : list R) :
  length (row_gradient normalize ignore_zeros n g t) = (length t `min` length g)%nat.
Proof.
  unfold row_gradient, stabilized. cbv zeta.
  destruct (ignore_zeros && zero_row t), normalize;
    rewrite ?length_fmap, length_zip_with, !length_fmap; reflexivity.
Qed.

(** X7: on well-formed tensors, the methods of [L2Distance] and of
    [CosineDistance] raise the [ValueError] of mismatched shapes exactly
    when the shapes of guesses and truths differ; otherwise each returns:
    [get_grad] a well-formed tensor of the guesses' shape, [get_similarity]
    one cosine per row. *)
Theorem distance_kernels_shapes :
  ∀ guesses truths,
    wf guesses → wf truths →
    (∀ self : L2Distance.t,
       (shape guesses = shape truths →
          ∃ grad loss,
            outcome (L2Distance.get_grad guesses truths) self = inr grad
            ∧ outcome (L2Distance.get_loss guesses truths) self = inr loss
            ∧ shape grad = shape guesses ∧ wf grad)
       ∧ (shape guesses ≠ shape truths →
            let e := ValueError (msg_l2_shapes (shape guesses) (shape truths)) in
            outcome (L2Distance.get_grad guesses truths) self = inl e
            ∧ outcome (L2Distance.get_loss guesses truths) self = inl e
            ∧ outcome (L2Distance.__call__ guesses truths) self = inl e))
    ∧ (∀ self : CosineDistance.t,
         (shape guesses = shape truths →
            ∃ cosine grad loss,
              outcome (CosineDistance.get_similarity guesses truths) self = inr cosine
              ∧ outcome (CosineDistance.get_grad guesses truths) self = inr grad
              ∧ outcome (CosineDistance.get_loss guesses truths) self = inr loss
              ∧ length cosine = nrows guesses
              ∧ shape grad = shape guesses ∧ wf grad)
         ∧ (shape guesses ≠ shape truths →
              let e := ValueError (msg_cosine_shapes (shape guesses) (shape truths)) in
              outcome (CosineDistance.get_similarity guesses truths) self = inl e
              ∧ outcome (CosineDistance.get_grad guesses truths) self = inl e
              ∧ outcome (CosineDistance.get_loss guesses truths) self = inl e
              ∧ outcome (CosineDistance.__call__ guesses truths) self = inl e)).
Proof.
  intros guesses truths Hg Ht. split; intros self; split.
  - intros Hshape. eexists. eexists.
    rewrite L2_get_loss_outcome, L2_get_grad_outcome.
    rewrite bool_decide_eq_true_2 by assumption.
    split; [ reflexivity | ]. split; [ reflexivity | ].
    destruct (L2Distance.normalize self); unfold div_batch;
      rewrite ?shape_map2d; (split; [ apply shape_zip2d; assumption | ]);
      try apply wf_map2d; apply wf_zip2d; assumption.
  - intros Hshape. cbv zeta.
    rewrite L2_call_outcome, L2_get_loss_outcome, L2_get_grad_outcome.
    rewrite bool_decide_eq_false_2 by assumption. auto.
  - intros Hshape. eexists. eexists. eexists.
    rewrite Cosine_get_loss_outcome, Cosine_get_similarity_outcome,
      Cosine_get_grad_outcome.
    rewrite bool_decide_eq_true_2 by assumption.
    do 3 (split; [ reflexivity | ]).
    apply shape_eq in Hshape as [Hr Hc]. unfold shape, nrows, wf in *. simpl.
    rewrite !length_zip_with. split; [ lia | ].
    split; [ f_equal; lia | ].
    apply Forall_forall. intros row Hrow.
    apply list_elem_of_lookup in Hrow as [i Hi].
    apply lookup_zip_with_Some in Hi as (x & y & -> & Hx & Hy).
    rewrite row_gradient_length.
    pose proof (Forall_lookup_1 _ _ _ _ Hg Hx) as Hlx.
    pose proof (Forall_lookup_1 _ _ _ _ Ht Hy) as Hly.
    simpl in *. lia.
  - intros Hshape. cbv zeta.
    rewrite Cosine_call_outcome, Cosine_get_loss_outcome,
      Cosine_get_similarity_outcome, Cosine_get_grad_outcome.
    rewrite bool_decide_eq_false_2 by assumption. auto.
Qed.

Lemma distance_kernels_shapes_witness :
  outcome (L2Distance.get_grad (mk_Floats2d 2 [[1; 0]]) (mk_Floats2d 3 [[1; 0; 0]]))
          (L2Distance.__init__ true)
    = inl (ValueError (msg_l2_shapes (1, 2)%nat (1, 3)%nat))
  ∧ ∃ cosine, outcome (CosineDistance.get_similarity
                          (mk_Floats2d 2 [[1; 0]]) (mk_Floats2d 2 [[0; 1]]))
                       (CosineDistance.__init__ true false) = inr cosine
              ∧ length cosine = 1%nat.
Proof.
  split.
  - destruct (distance_kernels_shapes (mk_Floats2d 2 [[1; 0]]) (mk_Floats2d 3 [[1; 0; 0]]))
      as [Hl2 _]; [ repeat constructor | repeat constructor | ].
    destruct (Hl2 (L2Distance.__init__ true)) as [_ Hraise].
    apply Hraise. discriminate.
  - destruct (distance_kernels_shapes (mk_Floats2d 2 [[1; 0]]) (mk_Floats2d 2 [[0; 1]]))
      as [_ Hcos]; [ repeat constructor | repeat constructor | ].
    destruct (Hcos (CosineDistance.__init__ true false)) as [Hret _].
    destruct (Hret eq_refl) as (cosine & grad & loss & Hsim & _ & _ & Hlen & _).
    exists cosine. split; [ exact Hsim | exact Hlen ].
Defined.

(** ** Equal guesses and truths *)

Lemma zip_minus_self (r : list R) : zip_with Rminus r r = replicate (length r) 0.
Proof.
  induction r as [ | x r IH ]; [ reflexivity | ].
  simpl. rewrite IH. f_equal. ring.
Qed.

Lemma zip2d_minus_self (t : Floats2d) : wf t → zip2d Rminus t t = full (shape t) 0.
Proof.
  destruct t as [c rs]. unfold wf, zip2d, full, shape, nrows. simpl.
  intros Hwf. f_equal. induction Hwf as [ | r rs Hr _ IH ]; [ reflexivity | ].
  simpl. rewrite IH, zip_minus_self, Hr. reflexivity.
Qed.

(** X8: when the truths are the guesses themselves (dense, well-formed),
    [CategoricalCrossentropy] and [L2Distance] return the zero gradient of
    the guesses' shape and the loss 0, with or without normalization. *)
Theorem equal_guesses_and_truths_give_zero :
  ∀ guesses,
    wf guesses →
    (∀ self : CCE.t,
       outcome (CCE.get_grad guesses (TruthArray (FloatsArr guesses)) None) self
         = inr (full (shape guesses) 0)
       ∧ outcome (CCE.get_loss guesses (TruthArray (FloatsArr guesses)) None) self
         = inr 0)
    ∧ (∀ self : L2Distance.t,
         outcome (L2Distance.get_grad guesses guesses) self
           = inr (full (shape guesses) 0)
         ∧ outcome (L2Distance.get_loss guesses guesses) self = inr 0).
Proof.
  intros guesses Hwf. split; intros self.
  - assert (Hgrad : outcome (CCE.get_grad guesses (TruthArray (FloatsArr guesses)) None) self
                    = inr (full (shape guesses) 0)).
    { rewrite CCE_get_grad_outcome, CCE_convert_array.
      rewrite bool_decide_eq_true_2 by reflexivity.
      unfold masked_difference. rewrite zip2d_minus_self, div_batch_zero by assumption.
      destruct (CCE.normalize self); reflexivity. }
    rewrite CCE_get_loss_outcome, Hgrad, total_squares_zero. auto.
  - assert (Hgrad : outcome (L2Distance.get_grad guesses guesses) self
                    = inr (full (shape guesses) 0)).
    { rewrite L2_get_grad_outcome, bool_decide_eq_true_2 by reflexivity.
      rewrite zip2d_minus_self, div_batch_zero by assumption.
      destruct (L2Distance.normalize self); reflexivity. }
    rewrite L2_get_loss_outcome, Hgrad, total_squares_zero. auto.
Qed.

Lemma equal_guesses_and_truths_give_zero_witness :
  outcome (L2Distance.get_loss (mk_Floats2d 2 [[3; 4]; [1; 2]])
             (mk_Floats2d 2 [[3; 4]; [1; 2]])) (L2Distance.__init__ true)
    = inr 0.
Proof.
  destruct (equal_guesses_and_truths_give_zero (mk_Floats2d 2 [[3; 4]; [1; 2]]))
    as [_ Hl2]; [ repeat constructor | ].
  apply (Hl2 (L2Distance.__init__ true)).
Defined.

(** ** Masks that exclude some rows, or none *)










(** ** The name table and string labels *)

Lemma name_table_snoc names name :
  name_table (names ++ [name]) = <[name := length names]> (name_table names).
Proof.
  unfold name_table. rewrite imap_app, foldl_app. simpl.
  rewrite Nat.add_0_r. reflexivity.
Qed.

Lemma name_table_Some names key i :
  name_table names !! key = Some i
  ↔ names !! i = Some key ∧ ∀ j, (i < j)%nat → names !! j ≠ Some key.
Proof.
  revert i. induction names as [ | name names IH ] using rev_ind; intros i.
  - unfold name_table. simpl. rewrite lookup_empty. split; [ discriminate | ].
    intros [Hi _]. discriminate.
  - rewrite name_table_snoc. destruct (decide (name = key)) as [-> | Hne].
    + rewrite lookup_insert_eq. split.
      * intros [= <-]. split.
        -- rewrite lookup_app_r, Nat.sub_diag by lia. reflexivity.
        -- intros j Hj. rewrite lookup_ge_None_2; [ discriminate | ].
           rewrite length_app. simpl. lia.
      * intros [Hi Hlast]. f_equal.
        assert (Hlt : (i < length (names ++ [key]))%nat) by (eapply lookup_lt_Some, Hi).
        rewrite length_app in Hlt. simpl in Hlt.
        destruct (decide (i = length names)) as [-> | Hneq]; [ reflexivity | ].
        exfalso. apply (Hlast (length names)); [ lia | ].
        rewrite lookup_app_r, Nat.sub_diag by lia. reflexivity.
    + rewrite lookup_insert_ne by assumption. rewrite IH. split.
      * intros [Hi Hlast]. split.
        -- rewrite lookup_app_l by (eapply lookup_lt_Some, Hi). exact Hi.
        -- intros j Hj Hsome. apply lookup_app_Some in Hsome as [Hl | [Hge Hr] ].
           ++ apply (Hlast j Hj Hl).
           ++ apply list_lookup_singleton_Some in Hr as [_ Heq]. congruence.
      * intros [Hi Hlast]. apply lookup_app_Some in Hi as [Hl | [Hge Hr] ].
        -- split; [ exact Hl | ]. intros j Hj Hsome. apply (Hlast j Hj).
           rewrite lookup_app_l by (eapply lookup_lt_Some, Hsome). exact Hsome.
        -- apply list_lookup_singleton_Some in Hr as [_ Heq]. congruence.
Qed.

(** X11: the table that [__init__] builds from [names] maps a name to the
    index of its last occurrence in [names], and holds no other name; a
    kernel constructed without names has no table. *)
Theorem name_table_of_constructed_kernel :
  ∀ normalize names,
    CCE._name_to_i (CCE.__init__ normalize None) = None
    ∧ ∃ table,
        CCE._name_to_i (CCE.__init__ normalize (Some names)) = Some table
        ∧ ∀ key,
            (table !! key = None ↔ key ∉ names)
            ∧ ∀ i, table !! key = Some i
                   ↔ names !! i = Some key ∧ ∀ j, (i < j)%nat → names !! j ≠ Some key.
Proof.
  intros normalize names. split; [ reflexivity | ].
  exists (name_table names). split; [ reflexivity | ].
  intros key. split; [ apply name_table_None | apply name_table_Some ].
Qed.

Lemma lookup_names_present table labels :
  Forall (λ label, is_Some (table !! label)) labels →
  ∃ indices,
    lookup_names table labels = inr indices
    ∧ Forall2 (λ label z, ∃ i, z = Z.of_nat i ∧ table !! label = Some i) labels indices.
Proof.
  induction 1 as [ | label labels [i Hi] _ (indices & Hl & Hall) ].
  - exists []. split; [ reflexivity | constructor ].
  - exists (Z.of_nat i :: indices). split.
    + simpl. rewrite Hi, Hl. reflexivity.
    + constructor; [ eauto | assumption ].
Qed.

Lemma CCE_get_grad_by_conversion self guesses truths truths' missing :
  outcome (CCE.convert_truths truths guesses) self
    = outcome (CCE.convert_truths truths' guesses) self →
  outcome (CCE.get_grad guesses truths missing) self
    = outcome (CCE.get_grad guesses truths' missing) self.
Proof. intros Hc. rewrite !CCE_get_grad_outcome, Hc. reflexivity. Qed.

(** X12: a kernel constructed with names resolves string labels that are all
    among the names to their indices in [names] (the last occurrence of
    each), label by label, and then computes the gradient and the loss it
    computes for that list of integer labels. *)
Theorem string_labels_as_indices :
  ∀ normalize names labels guesses missing,
    Forall (λ label, label ∈ names) labels →
    let self := CCE.__init__ normalize (Some names) in
    ∃ indices,
      Forall2 (λ label z, ∃ i, z = Z.of_nat i ∧ names !! i = Some label
                               ∧ ∀ j, (i < j)%nat → names !! j ≠ Some label)
              labels indices
      ∧ outcome (CCE.convert_truths (TruthStrList labels) guesses) self
        = inr (to_categorical indices (ncols guesses))
      ∧ outcome (CCE.get_grad guesses (TruthStrList labels) missing) self
        = outcome (CCE.get_grad guesses (TruthIntList indices) missing) self
      ∧ outcome (CCE.get_loss guesses (TruthStrList labels) missing) self
        = outcome (CCE.get_loss guesses (TruthIntList indices) missing) self.
Proof.
  intros normalize names labels guesses missing Hin self.
  destruct (lookup_names_present (name_table names) labels)
    as (indices & Hlookup & Hall).
  { eapply Forall_impl; [ exact Hin | ]. intros label Hl. simpl.
    destruct (name_table names !! label) eqn:Hn; [ eauto | ].
    apply name_table_None in Hn. contradiction. }
  exists indices.
  assert (Hconv : outcome (CCE.convert_truths (TruthStrList labels) guesses) self
                  = inr (to_categorical indices (ncols guesses))).
  { destruct labels as [ | label labels ].
    - apply Forall2_nil_inv_l in Hall as ->. reflexivity.
    - unfold self. rewrite CCE_convert_strings_table, Hlookup. reflexivity. }
  assert (Hgrad : outcome (CCE.get_grad guesses (TruthStrList labels) missing) self
                  = outcome (CCE.get_grad guesses (TruthIntList indices) missing) self)
    by (apply CCE_get_grad_by_conversion; rewrite Hconv; reflexivity).
  split; [ | split; [ exact Hconv | split; [ exact Hgrad | ] ] ].
  - eapply Forall2_impl; [ exact Hall | ].
    intros label z (i & -> & Hi). exists i. split; [ reflexivity | ].
    apply name_table_Some, Hi.
  - rewrite !CCE_get_loss_outcome, Hgrad. reflexivity.
Qed.

Lemma string_labels_as_indices_witness :
  outcome (CCE.convert_truths (TruthStrList ["cat"; "dog"]%string) (mk_Floats2d 2 [[1; 0]; [0; 1]]))
          (CCE.__init__ true (Some ["dog"; "cat"]%string))
    = inr (to_categorical [1; 0]%Z 2).
Proof.
  destruct (string_labels_as_indices true ["dog"; "cat"]%string ["cat"; "dog"]%string
              (mk_Floats2d 2 [[1; 0]; [0; 1]]) None)
    as (indices & Hall & Hconv & _).
  - repeat constructor.
  - rewrite Hconv. do 2 f_equal.
    apply Forall2_cons_inv_l in Hall as (z1 & rest & (i1 & -> & Hi1 & _) & Hall & ->).
    apply Forall2_cons_inv_l in Hall as (z2 & rest' & (i2 & -> & Hi2 & _) & Hall & ->).
    apply Forall2_nil_inv_l in Hall as ->.
    destruct i1 as [ | [ | i1 ] ]; try discriminate Hi1.
    destruct i2 as [ | [ | i2 ] ]; try discriminate Hi2.
    reflexivity.
Defined.

(** ** Integer labels *)

Lemma shape_to_categorical labels n : shape (to_categorical labels n) = (length labels, n).
Proof. unfold shape, nrows, to_categorical. simpl. rewrite length_fmap. reflexivity. Qed.

(** A label that is a class of guesses with [n_classes] columns: only for
    such labels does the one-hot row of the spec say what [to_categorical]
    returns. *)
Definition is_class (n_classes : nat) (label : Z) : Prop :=
  (0 <= label < Z.of_nat n_classes)%Z.

(** X13: given integer labels (as a tensor or as a list) that are all
    classes of the guesses, in [0, n_classes), and well-formed guesses,
    [get_grad] raises the [ValueError] of mismatched shapes when the number
    of labels is not the number of rows of the guesses; otherwise it returns
    the gradient whose entry in row [k] and column [j] is the guess there,
    minus 1 if [j] is the label of row [k], divided by the batch size when
    the kernel normalizes. *)
Theorem gradient_for_integer_labels :
  ∀ (self : CCE.t) guesses truths labels,
    wf guesses →
    Forall (is_class (ncols guesses)) labels →
    truths = TruthArray (IntsArr labels) ∨ truths = TruthIntList labels →
    (length labels ≠ nrows guesses →
       outcome (CCE.get_grad guesses truths None) self
         = inl (ValueError (msg_cce_shapes (shape guesses)
                              (length labels, ncols guesses))))
    ∧ (length labels = nrows guesses →
         ∃ grad,
           outcome (CCE.get_grad guesses truths None) self = inr grad
           ∧ ∀ k label grow j x,
               labels !! k = Some label → rows guesses !! k = Some grow →
               grow !! j = Some x →
               ∃ drow,
                 rows grad !! k = Some drow
                 ∧ drow !! j
                   = Some (let d := x - (if bool_decide (Z.of_nat j = label)
                                         then 1 else 0) in
                           if CCE.normalize self
                           then d / INR (nrows guesses) else d)).
Proof.
  intros self guesses truths labels Hwf _ Htruths.
  assert (Hconv : outcome (CCE.convert_truths truths guesses) self
                  = inr (to_categorical labels (ncols guesses)))
    by (destruct Htruths as [-> | ->]; reflexivity).
  rewrite CCE_get_grad_outcome, Hconv, shape_to_categorical.
  unfold masked_difference. split.
  - intros Hlen. rewrite bool_decide_eq_false_2; [ reflexivity | ].
    unfold shape. intros [= Heq]. auto.
  - intros Hlen. rewrite bool_decide_eq_true_2 by (unfold shape; congruence).
    eexists. split; [ reflexivity | ].
    intros k label grow j x Hlabel Hgrow Hx.
    pose proof (Forall_lookup_1 _ _ _ _ Hwf Hgrow) as Hglen. simpl in Hglen.
    assert (Hj : (j < ncols guesses)%nat)
      by (rewrite <- Hglen; eapply lookup_lt_Some, Hx).
    assert (Hdiff : rows (zip2d Rminus guesses (to_categorical labels (ncols guesses))) !! k
                    = Some (zip_with Rminus grow (one_hot (ncols guesses) label))).
    { unfold zip2d, to_categorical. cbn [rows].
      rewrite lookup_zip_with, Hgrow, list_lookup_fmap, Hlabel. reflexivity. }
    assert (Hentry : zip_with Rminus grow (one_hot (ncols guesses) label) !! j
                     = Some (x - (if bool_decide (Z.of_nat j = label) then 1 else 0))).
    { rewrite lookup_zip_with, Hx, one_hot_lookup by assumption. reflexivity. }
    destruct (CCE.normalize self).
    + eexists. unfold div_batch, map2d. cbn [rows].
      rewrite list_lookup_fmap, Hdiff. split; [ reflexivity | ].
      rewrite list_lookup_fmap, Hentry. reflexivity.
    + eexists. split; [ exact Hdiff | exact Hentry ].
Qed.

Lemma gradient_for_integer_labels_witness :
  ∃ grad drow,
    outcome (CCE.get_grad (mk_Floats2d 2 [[1; 0]; [0; 1]]) (TruthIntList [1; 1]%Z) None)
            (CCE.__init__ true None) = inr grad
    ∧ rows grad !! 0%nat = Some drow
    ∧ drow !! 1%nat = Some ((0 - 1) / INR 2).
Proof.
  destruct (gradient_for_integer_labels (CCE.__init__ true None)
              (mk_Floats2d 2 [[1; 0]; [0; 1]]) (TruthIntList [1; 1]%Z) [1; 1]%Z)
    as [_ Hret];
    [ repeat constructor
    | repeat constructor; unfold is_class; simpl; lia
    | right; reflexivity | ].
  destruct (Hret eq_refl) as (grad & Hgrad & Hentries).
  destruct (Hentries 0%nat 1%Z [1; 0] 1%nat 0 eq_refl eq_refl eq_refl)
    as (drow & Hrow & Hentry).
  exists grad, drow. split; [ exact Hgrad | ]. split; [ exact Hrow | exact Hentry ].
Defined.

(** ** The exceptions of [get_grad] *)

Lemma lookup_names_raises table labels e :
  lookup_names table labels = inl e →
  ∃ key, e = KeyError key ∧ key ∈ labels ∧ table !! key = None.
Proof.
  induction labels as [ | label labels IH ]; simpl; [ discriminate | ].
  destruct (table !! label) as [i | ] eqn:Hl.
  - destruct (lookup_names table labels) as [e' | ]; [ | discriminate ].
    intros [= <-]. destruct (IH eq_refl) as (key & -> & Hin & Hnone).
    exists key. split; [ reflexivity | ]. split; [ right; assumption | assumption ].
  - intros [= <-]. exists label. split; [ reflexivity | ]. split; [ left | assumption ].
Qed.

Lemma broadcast_to_raises (m : Floats2d) s e :
  broadcast_to m s = inl e → e = ValueError msg_broadcast ∧ shape m ≠ s.
Proof.
  unfold broadcast_to. destruct (_ && _) eqn:Hcheck; [ discriminate | ].
  intros [= <-]. split; [ reflexivity | ]. intros <-. unfold shape in Hcheck.
  simpl in Hcheck. rewrite !Nat.eqb_refl in Hcheck. discriminate.
Qed.

Lemma in_range_dec_all n idx :
  {Forall (in_range n) idx} + {¬ Forall (in_range n) idx}.
Proof. apply Forall_dec. intros i. apply in_range_dec. Qed.

(** The integer labels that conversion hands to [to_categorical] are
    classes of the guesses: integer labels are in [0, n_classes), and names,
    whose indices string labels are resolved to, are at most [n_classes]. *)
Definition labels_are_classes (names : option (list string)) (truths : Truths)
    (n_classes : nat) : Prop :=
  match truths with
  | TruthArray (IntsArr labels) => Forall (is_class n_classes) labels
  | TruthIntList labels => Forall (is_class n_classes) labels
  | TruthStrList _ =>
      match names with
      | Some ns => (length ns <= n_classes)%nat
      | None => True
      end
  | TruthArray (FloatsArr _) => True
  end.

(** X14: the exceptions [get_grad] of a constructed kernel can raise, and
    when, for truths whose labels are classes of the guesses. They are: the
    [ValueError] of the missing name table, from a kernel without names
    given a non-empty list of strings; the [KeyError] of a label that is not
    among the names; the [ValueError] of mismatched shapes, when the
    converted truths have another shape than the guesses; the [IndexError]
    of a row index of the mask outside [-n, n); the [IndexError] for a mask
    of a float dtype other than float32, which is taken for an index array;
    and the backend's [ValueError] for a float32 mask of another shape that
    cannot be broadcast. No such call raises the interval errors, or any
    other exception. *)
Theorem get_grad_exceptions :
  ∀ normalize names guesses truths missing e,
    labels_are_classes names truths (ncols guesses) →
    outcome (CCE.get_grad guesses truths missing) (CCE.__init__ normalize names)
      = inl e →
    (e = ValueError msg_no_names ∧ names = None
       ∧ ∃ label labels, truths = TruthStrList (label :: labels))
    ∨ (∃ key ns labels,
         e = KeyError key ∧ names = Some ns ∧ truths = TruthStrList labels
         ∧ key ∈ labels ∧ key ∉ ns)
    ∨ (∃ target,
         e = ValueError (msg_cce_shapes (shape guesses) (shape target))
         ∧ outcome (CCE.convert_truths truths guesses) (CCE.__init__ normalize names)
           = inr target
         ∧ shape guesses ≠ shape target)
    ∨ (∃ i idx,
         e = IndexError i ∧ missing = Some (MissingInts idx)
         ∧ i ∈ idx ∧ ¬ in_range (nrows guesses) i)
    ∨ (∃ m,
         e = IndexError_not_integers ∧ missing = Some (MissingFloatsOther m))
    ∨ (∃ m,
         e = ValueError msg_broadcast ∧ missing = Some (MissingFloats m)
         ∧ shape m ≠ shape guesses).
Proof.
  intros normalize names guesses truths missing e _.
  rewrite CCE_get_grad_outcome.
  destruct (outcome (CCE.convert_truths truths guesses) (CCE.__init__ normalize names))
    as [e' | target] eqn:Hc.
  - intros [= <-].
    destruct truths as [ [labels | dense] | labels | [ | label labels] ];
      try discriminate Hc.
    destruct names as [ns | ].
    + rewrite CCE_convert_strings_table in Hc.
      destruct (lookup_names (name_table ns) (label :: labels)) as [e | ] eqn:Hl;
        [ | discriminate ].
      injection Hc as <-.
      apply lookup_names_raises in Hl as (key & -> & Hin & Hnone).
      right. left. exists key, ns, (label :: labels).
      repeat split; try assumption. apply name_table_None, Hnone.
    + rewrite CCE_convert_strings_no_names in Hc by reflexivity.
      injection Hc as <-. left. repeat split. eauto.
  - case_bool_decide as Hshape.
    + destruct (masked_difference guesses target missing) as [e' | d] eqn:Hd;
        [ | discriminate ].
      intros [= <-]. unfold masked_difference in Hd.
      destruct missing as [ [m | idx | m] | ]; [ | | | discriminate ].
      * simpl in Hd. unfold imul in Hd.
        destruct (broadcast_to _ _) as [e | ] eqn:Hb; [ | discriminate ].
        injection Hd as <-. apply broadcast_to_raises in Hb as [-> Hne].
        do 5 right. exists m. repeat split.
        rewrite shape_map2d, shape_zip2d in Hne by assumption. exact Hne.
      * destruct (_make_mask (MissingInts idx) (shape guesses)) as [e | mask] eqn:Hm.
        -- injection Hd as <-. right. right. right. left.
           unfold _make_mask in Hm. cbn [fst shape] in Hm.
           destruct (in_range_dec_all (nrows guesses) idx) as [Hall | Hnot].
           ++ destruct (axis_indices_in_range _ _ Hall) as (ks & Hks & _).
              rewrite Hks in Hm. discriminate.
           ++ destruct (axis_indices_out_of_range _ _ Hnot) as (i & Hi & Hout & Hr).
              rewrite Hr in Hm. injection Hm as <-. exists i, idx. auto.
        -- exfalso. destruct (make_mask_ints_shape _ _ _ Hm) as [Hs Hw].
           unfold imul in Hd.
           rewrite broadcast_to_same_shape in Hd; [ discriminate | | ].
           ++ apply wf_map2d, Hw.
           ++ rewrite shape_map2d, shape_zip2d by assumption. exact Hs.
      * simpl in Hd. injection Hd as <-. do 4 right. left. exists m. auto.
    + intros [= <-]. right. right. left. exists target. auto.
Qed.

Lemma get_grad_exceptions_witness :
  (KeyError "bird" = ValueError msg_no_names ∧ Some ["dog"%string] = None
     ∧ ∃ label labels, TruthStrList ["bird"%string] = TruthStrList (label :: labels))
  ∨ (∃ key ns labels,
       KeyError "bird" = KeyError key ∧ Some ["dog"%string] = Some ns
       ∧ TruthStrList ["bird"%string] = TruthStrList labels
       ∧ key ∈ labels ∧ key ∉ ns)
  ∨ (∃ target,
       KeyError "bird" = ValueError (msg_cce_shapes (shape (mk_Floats2d 1 [[1]])) (shape target))
       ∧ outcome (CCE.convert_truths (TruthStrList ["bird"%string]) (mk_Floats2d 1 [[1]]))
                 (CCE.__init__ true (Some ["dog"%string])) = inr target
       ∧ shape (mk_Floats2d 1 [[1]]) ≠ shape target)
  ∨ (∃ i idx,
       KeyError "bird" = IndexError i ∧ None = Some (MissingInts idx)
       ∧ i ∈ idx ∧ ¬ in_range (nrows (mk_Floats2d 1 [[1]])) i)
  ∨ (∃ m,
       KeyError "bird" = IndexError_not_integers ∧ None = Some (MissingFloatsOther m))
  ∨ (∃ m,
       KeyError "bird" = ValueError msg_broadcast ∧ None = Some (MissingFloats m)
       ∧ shape m ≠ shape (mk_Floats2d 1 [[1]])).
Proof.
  apply (get_grad_exceptions true (Some ["dog"%string]) (mk_Floats2d 1 [[1]])
           (TruthStrList ["bird"%string]) None (KeyError "bird")).
  - simpl. lia.
  - apply CCE_convert_error_propagates.
    rewrite CCE_convert_strings_table. reflexivity.
Defined.

(** ** Normalization *)

Lemma sum_fmap_div (c : R) (l : list R) : sum ((λ x, x / c) <$> l) = sum l / c.
Proof.
  induction l as [ | x l IH ]; [ simpl; unfold Rdiv; ring | ].
  rewrite fmap_cons, !sum_cons, IH. unfold Rdiv. ring.
Qed.

Lemma sum_squares_div (c : R) (r : list R) :
  sum ((λ x, x ^ 2) <$> ((λ x, x / c) <$> r)) = sum ((λ x, x ^ 2) <$> r) / c ^ 2.
Proof.
  induction r as [ | x r IH ].
  - simpl. unfold Rdiv. ring.
  - rewrite !fmap_cons, !sum_cons, IH. unfold Rdiv.
    replace (/ c ^ 2) with (/ c * / c) by (simpl; rewrite Rmult_1_r, Rinv_mult; reflexivity).
    ring.
Qed.

Lemma sum_of_squares_div_batch (d : Floats2d) n :
  sum_of_squares (div_batch d n) = sum_of_squares d / INR n ^ 2.
Proof.
  unfold sum_of_squares, total, div_batch, map2d. cbn [rows].
  induction (rows d) as [ | r rs IH ].
  - simpl. unfold Rdiv. ring.
  - rewrite !fmap_cons, !sum_cons, IH, sum_squares_div. unfold Rdiv. ring.
Qed.

Lemma CCE_convert_truths_any_normalize b b' names table truths guesses :
  outcome (CCE.convert_truths truths guesses) (CCE.mk b names table)
    = outcome (CCE.convert_truths truths guesses) (CCE.mk b' names table).
Proof.
  destruct truths as [ [labels | dense] | labels | [ | label labels] ];
    try reflexivity.
  unfold outcome, CCE.convert_truths, bind, attr, raise, call, ret.
  destruct names; [ | reflexivity ].
  destruct table as [table | ]; [ | reflexivity ].
  simpl. destruct (table !! label); [ | reflexivity ].
  destruct (lookup_names table labels); reflexivity.
Qed.

Lemma row_gradient_normalized ignore_zeros n (g t : list R) :
  row_gradient true ignore_zeros n g t
    = (λ x, x / INR n) <$> row_gradient false ignore_zeros n g t.
Proof.
  unfold row_gradient. cbv zeta. rewrite <- !list_fmap_compose.
  apply list_fmap_ext. intros _ x _. simpl. unfold Rdiv. ring.
Qed.

(** X15: a kernel that normalizes returns the gradient of the same kernel
    without normalization divided by the batch size, and raises whenever
    that one raises; over the real numbers, with which the entries are
    modelled here (the floats of the backend round the sums), its loss is
    the other's divided by the square of the batch size for
    [CategoricalCrossentropy] and [L2Distance], and by the batch size itself
    for [CosineDistance]. *)
Theorem normalization_scales_gradient_and_loss :
  (∀ names table guesses truths missing,
     outcome (CCE.get_grad guesses truths missing) (CCE.mk true names table)
       = match outcome (CCE.get_grad guesses truths missing) (CCE.mk false names table) with
         | inl e => inl e
         | inr d => inr (div_batch d (nrows guesses))
         end
     ∧ outcome (CCE.get_loss guesses truths missing) (CCE.mk true names table)
       = match outcome (CCE.get_loss guesses truths missing) (CCE.mk false names table) with
         | inl e => inl e
         | inr l => inr (l / INR (nrows guesses) ^ 2)
         end)
  ∧ (∀ guesses truths,
       outcome (L2Distance.get_grad guesses truths) (L2Distance.mk true)
         = match outcome (L2Distance.get_grad guesses truths) (L2Distance.mk false) with
           | inl e => inl e
           | inr d => inr (div_batch d (nrows guesses))
           end
       ∧ outcome (L2Distance.get_loss guesses truths) (L2Distance.mk true)
         = match outcome (L2Distance.get_loss guesses truths) (L2Distance.mk false) with
           | inl e => inl e
           | inr l => inr (l / INR (nrows guesses) ^ 2)
           end)
  ∧ (∀ ignore_zeros guesses truths,
       outcome (CosineDistance.get_grad guesses truths) (CosineDistance.mk true ignore_zeros)
         = match outcome (CosineDistance.get_grad guesses truths)
                   (CosineDistance.mk false ignore_zeros) with
           | inl e => inl e
           | inr d => inr (div_batch d (nrows guesses))
           end
       ∧ outcome (CosineDistance.get_loss guesses truths) (CosineDistance.mk true ignore_zeros)
         = match outcome (CosineDistance.get_loss guesses truths)
                   (CosineDistance.mk false ignore_zeros) with
           | inl e => inl e
           | inr l => inr (l / INR (nrows guesses))
           end).
Proof.
  split; [ | split ].
  - intros names table guesses truths missing.
    assert (Hgrad : outcome (CCE.get_grad guesses truths missing) (CCE.mk true names table)
              = match outcome (CCE.get_grad guesses truths missing)
                        (CCE.mk false names table) with
                | inl e => inl e
                | inr d => inr (div_batch d (nrows guesses))
                end).
    { rewrite !CCE_get_grad_outcome.
      rewrite (CCE_convert_truths_any_normalize true false).
      destruct (outcome (CCE.convert_truths truths guesses) (CCE.mk false names table))
        as [e | target]; [ reflexivity | ].
      case_bool_decide; [ | reflexivity ].
      destruct (masked_difference guesses target missing); reflexivity. }
    split; [ exact Hgrad | ].
    rewrite !CCE_get_loss_outcome, Hgrad.
    destruct (outcome (CCE.get_grad guesses truths missing) (CCE.mk false names table));
      [ reflexivity | ].
    f_equal. apply sum_of_squares_div_batch.
  - intros guesses truths.
    rewrite !L2_get_loss_outcome, !L2_get_grad_outcome.
    case_bool_decide; [ | split; reflexivity ].
    simpl. split; [ reflexivity | ]. f_equal. apply sum_of_squares_div_batch.
  - intros ignore_zeros guesses truths.
    rewrite !Cosine_get_loss_outcome, !Cosine_get_grad_outcome,
      !Cosine_get_similarity_outcome.
    case_bool_decide; [ | split; reflexivity ].
    simpl. split.
    + do 2 f_equal. unfold div_batch, map2d. cbn [rows ncols]. f_equal.
      rewrite <- (zip_with_fmap_result
                    (row_gradient false ignore_zeros (nrows guesses))
                    (λ r : list R, (λ x, x / INR (nrows guesses)) <$> r)).
      apply zip_with_ext; try reflexivity.
      intros g t. apply row_gradient_normalized.
    + f_equal. rewrite <- sum_fmap_div.
      rewrite <- (zip_with_fmap_result
                    (row_loss false ignore_zeros (nrows guesses))
                    (λ l, l / INR (nrows guesses))).
      reflexivity.
Qed.

(** ** [L2Distance]: symmetry, and when the loss is zero *)

Lemma zip_minus_swap (a b : list R) :
  zip_with Rminus b a = Ropp <$> zip_with Rminus a b.
Proof.
  revert b. induction a as [ | x a IH ]; intros [ | y b ]; try reflexivity.
  simpl. rewrite IH. f_equal. ring.
Qed.

Lemma zip2d_minus_swap (a b : Floats2d) :
  ncols a = ncols b → zip2d Rminus b a = map2d Ropp (zip2d Rminus a b).
Proof.
  intros Hc. unfold zip2d, map2d. cbn [rows ncols]. rewrite Hc. f_equal.
  generalize (rows b). induction (rows a) as [ | x xs IH ]; intros [ | y ys ];
    try reflexivity.
  simpl. rewrite IH, zip_minus_swap. reflexivity.
Qed.

Lemma sum_squares_opp (r : list R) :
  sum ((λ x, x ^ 2) <$> (Ropp <$> r)) = sum ((λ x, x ^ 2) <$> r).
Proof.
  induction r as [ | x r IH ]; [ reflexivity | ].
  rewrite !fmap_cons, !sum_cons, IH. ring.
Qed.

Lemma sum_of_squares_opp (d : Floats2d) :
  sum_of_squares (map2d Ropp d) = sum_of_squares d.
Proof.
  unfold sum_of_squares, total, map2d. cbn [rows].
  induction (rows d) as [ | r rs IH ]; [ reflexivity | ].
  rewrite !fmap_cons, !sum_cons, IH, sum_squares_opp. reflexivity.
Qed.

Lemma div_batch_opp (d : Floats2d) n :
  div_batch (map2d Ropp d) n = map2d Ropp (div_batch d n).
Proof.
  unfold div_batch, map2d. cbn [rows ncols]. f_equal.
  rewrite <- !list_fmap_compose. apply list_fmap_ext. intros _ r _. simpl.
  rewrite <- !list_fmap_compose. apply list_fmap_ext. intros _ x _. simpl.
  unfold Rdiv. ring.
Qed.

(** X16: for guesses and truths of one shape, exchanging them negates the
    gradient of [L2Distance] and leaves its loss as it is. *)
Theorem l2_distance_is_symmetric :
  ∀ (self : L2Distance.t) guesses truths,
    shape guesses = shape truths →
    outcome (L2Distance.get_grad truths guesses) self
      = match outcome (L2Distance.get_grad guesses truths) self with
        | inl e => inl e
        | inr d => inr (map2d Ropp d)
        end
    ∧ outcome (L2Distance.get_loss truths guesses) self
      = outcome (L2Distance.get_loss guesses truths) self.
Proof.
  intros self guesses truths Hshape.
  pose proof Hshape as [Hr Hc]%shape_eq.
  assert (Hgrad : outcome (L2Distance.get_grad truths guesses) self
                  = match outcome (L2Distance.get_grad guesses truths) self with
                    | inl e => inl e
                    | inr d => inr (map2d Ropp d)
                    end).
  { rewrite !L2_get_grad_outcome.
    rewrite !bool_decide_eq_true_2 by congruence.
    rewrite (zip2d_minus_swap guesses truths Hc), div_batch_opp, <- Hr.
    destruct (L2Distance.normalize self); reflexivity. }
  split; [ exact Hgrad | ].
  rewrite !L2_get_loss_outcome, Hgrad.
  destruct (outcome (L2Distance.get_grad guesses truths) self); [ reflexivity | ].
  f_equal. apply sum_of_squares_opp.
Qed.

Lemma l2_distance_is_symmetric_witness :
  outcome (L2Distance.get_loss (mk_Floats2d 2 [[0; 1]]) (mk_Floats2d 2 [[3; 4]]))
          (L2Distance.__init__ true)
    = outcome (L2Distance.get_loss (mk_Floats2d 2 [[3; 4]]) (mk_Floats2d 2 [[0; 1]]))
              (L2Distance.__init__ true).
Proof.
  apply (l2_distance_is_symmetric (L2Distance.__init__ true)
           (mk_Floats2d 2 [[3; 4]]) (mk_Floats2d 2 [[0; 1]])).
  reflexivity.
Defined.

Lemma sum_squares_zero (r : list R) :
  sum ((λ x, x ^ 2) <$> r) = 0 ↔ Forall (λ x, x = 0) r.
Proof.
  induction r as [ | x r IH ].
  - split; [ constructor | reflexivity ].
  - rewrite fmap_cons, sum_cons, Forall_cons, <- IH.
    pose proof (pow2_ge_0 x) as Hx. pose proof (sum_squares_nonneg r) as Hr.
    split.
    + intros Hsum. assert (Hx0 : x ^ 2 = 0) by lra. split; [ | lra ].
      simpl in Hx0. rewrite Rmult_1_r in Hx0.
      apply Rmult_integral in Hx0. tauto.
    + intros [-> ->]. simpl. ring.
Qed.

Lemma sum_of_squares_nonneg (d : Floats2d) : 0 <= sum_of_squares d.
Proof.
  unfold sum_of_squares, total, map2d. cbn [rows].
  induction (rows d) as [ | r rs IH ]; [ simpl; lra | ].
  rewrite !fmap_cons, sum_cons. pose proof (sum_squares_nonneg r). lra.
Qed.

Lemma sum_of_squares_zero (d : Floats2d) :
  sum_of_squares d = 0 ↔ Forall (Forall (λ x, x = 0)) (rows d).
Proof.
  unfold sum_of_squares, total, map2d. cbn [rows].
  induction (rows d) as [ | r rs IH ].
  - split; [ constructor | reflexivity ].
  - rewrite !fmap_cons, sum_cons, Forall_cons, <- IH, <- sum_squares_zero.
    pose proof (sum_squares_nonneg r) as Hr.
    assert (Hrs : 0 <= sum (sum <$> ((λ r0 : list R, (λ x, x ^ 2) <$> r0) <$> rs))).
    { clear. induction rs as [ | r rs IH ]; [ simpl; lra | ].
      rewrite !fmap_cons, sum_cons. pose proof (sum_squares_nonneg r). lra. }
    split; [ intros Hsum; split; lra | intros [-> ->]; lra ].
Qed.

Lemma zip_minus_zero (a b : list R) :
  length a = length b →
  Forall (λ x, x = 0) (zip_with Rminus a b) ↔ a = b.
Proof.
  revert b. induction a as [ | x a IH ]; intros [ | y b ] Hlen;
    try discriminate.
  - split; [ reflexivity | constructor ].
  - simpl. rewrite Forall_cons, IH by (simpl in Hlen; lia). split.
    + intros [Hxy ->]. f_equal. lra.
    + intros [= -> ->]. split; [ lra | reflexivity ].
Qed.

Lemma zip2d_minus_zero (a b : Floats2d) :
  wf a → wf b → shape a = shape b →
  Forall (Forall (λ x, x = 0)) (rows (zip2d Rminus a b)) ↔ a = b.
Proof.
  intros Ha Hb [Hr Hc]%shape_eq.
  destruct a as [c A], b as [c' B]. unfold wf, nrows in *. simpl in *. subst c'.
  transitivity (A = B); [ | split; [ intros ->; reflexivity | intros [= ->]; reflexivity ] ].
  revert B Hb Hr. induction Ha as [ | x A Hx _ IH ]; intros [ | y B ] Hb Hr;
    try discriminate.
  - split; [ reflexivity | constructor ].
  - apply Forall_cons in Hb as [Hy Hb]. simpl.
    rewrite Forall_cons, IH, zip_minus_zero by (simpl in Hr; lia || congruence).
    split; [ intros [-> ->]; reflexivity | intros [= -> ->]; auto ].
Qed.

(** X17: for well-formed guesses and truths of one shape, the loss of
    [L2Distance] is never negative, and, over the real numbers with which
    the entries are modelled here (in the floats of the backend a square
    can underflow to 0), it is 0 exactly when the guesses equal the truths. *)
Theorem l2_loss_zero_iff_equal :
  ∀ (self : L2Distance.t) guesses truths,
    wf guesses → wf truths → shape guesses = shape truths →
    ∃ loss,
      outcome (L2Distance.get_loss guesses truths) self = inr loss
      ∧ 0 <= loss
      ∧ (loss = 0 ↔ guesses = truths).
Proof.
  intros self guesses truths Hg Ht Hshape.
  rewrite L2_get_loss_outcome, L2_get_grad_outcome.
  rewrite bool_decide_eq_true_2 by assumption.
  eexists. split; [ reflexivity | ]. fold (sum_of_squares).
  split; [ apply sum_of_squares_nonneg | ].
  rewrite <- (zip2d_minus_zero guesses truths Hg Ht Hshape), <- sum_of_squares_zero.
  destruct (L2Distance.normalize self); [ | reflexivity ].
  fold (sum_of_squares (div_batch (zip2d Rminus guesses truths) (nrows guesses))).
  rewrite sum_of_squares_div_batch.
  destruct (rows guesses) as [ | g gs ] eqn:Hrows.
  - assert (Hempty : sum_of_squares (zip2d Rminus guesses truths) = 0).
    { unfold sum_of_squares, total, map2d, zip2d. cbn [rows]. rewrite Hrows.
      reflexivity. }
    rewrite Hempty. unfold Rdiv. rewrite Rmult_0_l. tauto.
  - assert (Hn : 0 < INR (nrows guesses) ^ 2).
    { apply pow_lt. unfold nrows. rewrite Hrows. apply lt_0_INR. simpl. lia. }
    split.
    + intros Hzero. apply (Rmult_eq_compat_r (INR (nrows guesses) ^ 2)) in Hzero.
      unfold Rdiv in Hzero. rewrite Rmult_assoc, Rinv_l, Rmult_1_r, Rmult_0_l in Hzero
        by lra. exact Hzero.
    + intros ->. unfold Rdiv. apply Rmult_0_l.
Qed.

Lemma l2_loss_zero_iff_equal_witness :
  ∃ loss,
    outcome (L2Distance.get_loss (mk_Floats2d 2 [[3; 4]]) (mk_Floats2d 2 [[0; 1]]))
            (L2Distance.__init__ true) = inr loss
    ∧ 0 <= loss ∧ loss ≠ 0.
Proof.
  destruct (l2_loss_zero_iff_equal (L2Distance.__init__ true)
              (mk_Floats2d 2 [[3; 4]]) (mk_Floats2d 2 [[0; 1]]))
    as (loss & Hloss & Hpos & Hzero);
    [ repeat constructor | repeat constructor | reflexivity | ].
  exists loss. split; [ exact Hloss | ]. split; [ exact Hpos | ].
  intros Heq. apply Hzero in Heq. injection Heq as Heq. lra.
Defined.

(** ** [CosineDistance]: symmetry, equal rows, bounds *)

Lemma zip_with_comm {A B} (f : A → A → B) (l k : list A) :
  (∀ a b, f a b = f b a) → zip_with f l k = zip_with f k l.
Proof.
  intros Hf. revert k. induction l as [ | a l IH ]; intros [ | b k ]; try reflexivity.
  simpl. rewrite Hf, IH. reflexivity.
Qed.

Lemma row_cosine_comm (g t : list R) : row_cosine g t = row_cosine t g.
Proof.
  unfold row_cosine, row_dot.
  rewrite (zip_with_comm Rmult (stabilized g) (stabilized t)) by (intros; ring).
  rewrite (Rmult_comm (row_norm (stabilized g))). reflexivity.
Qed.

Lemma row_loss_not_ignoring normalize n c (t t' : list R) :
  row_loss normalize false n c t = row_loss normalize false n c t'.
Proof. reflexivity. Qed.

Lemma zip_with_second_irrelevant {A B C} (f : A → B → C) (l : list A) (k k' : list B) :
  (∀ a b b', f a b = f a b') → length k = length k' →
  zip_with f l k = zip_with f l k'.
Proof.
  intros Hf. revert k k'. induction l as [ | a l IH ]; intros [ | b k ] [ | b' k' ] Hlen;
    try reflexivity; try discriminate.
  simpl. rewrite (Hf a b b'), (IH k k') by (simpl in Hlen; lia). reflexivity.
Qed.

(** X18: for guesses and truths of one shape, the cosine similarity is the
    same when the two are exchanged, and so is the loss of a kernel that
    does not ignore zero rows. *)
Theorem cosine_similarity_is_symmetric :
  ∀ (self : CosineDistance.t) guesses truths,
    shape guesses = shape truths →
    outcome (CosineDistance.get_similarity truths guesses) self
      = outcome (CosineDistance.get_similarity guesses truths) self
    ∧ (CosineDistance.ignore_zeros self = false →
         outcome (CosineDistance.get_loss truths guesses) self
           = outcome (CosineDistance.get_loss guesses truths) self).
Proof.
  intros self guesses truths Hshape.
  pose proof Hshape as [Hr Hc]%shape_eq.
  assert (Hsim : outcome (CosineDistance.get_similarity truths guesses) self
                 = outcome (CosineDistance.get_similarity guesses truths) self).
  { rewrite !Cosine_get_similarity_outcome.
    rewrite !bool_decide_eq_true_2 by congruence.
    f_equal. apply zip_with_comm, row_cosine_comm. }
  split; [ exact Hsim | ].
  intros Hignore. rewrite !Cosine_get_loss_outcome, Hsim, Hignore, <- Hr.
  destruct (outcome (CosineDistance.get_similarity guesses truths) self);
    [ reflexivity | ].
  do 2 f_equal. apply zip_with_second_irrelevant.
  - intros c t t'. apply row_loss_not_ignoring.
  - exact Hr.
Qed.

Lemma cosine_similarity_is_symmetric_witness :
  outcome (CosineDistance.get_similarity (mk_Floats2d 2 [[0; 1]]) (mk_Floats2d 2 [[3; 4]]))
          (CosineDistance.__init__ true false)
    = outcome (CosineDistance.get_similarity (mk_Floats2d 2 [[3; 4]]) (mk_Floats2d 2 [[0; 1]]))
              (CosineDistance.__init__ true false).
Proof.
  apply (cosine_similarity_is_symmetric (CosineDistance.__init__ true false)
           (mk_Floats2d 2 [[3; 4]]) (mk_Floats2d 2 [[0; 1]])).
  reflexivity.
Defined.

Lemma zip_minus_equal (f g : R → R) (y : list R) :
  (∀ x, f x = g x) → Forall (λ x, x = 0) (zip_with Rminus (f <$> y) (g <$> y)).
Proof.
  intros Hfg. induction y as [ | x y IH ]; [ constructor | ].
  simpl. constructor; [ rewrite Hfg; ring | exact IH ].
Qed.

Lemma Forall_zero_fmap (f : R → R) (l : list R) :
  f 0 = 0 → Forall (λ x, x = 0) l → Forall (λ x, x = 0) (f <$> l).
Proof.
  intros Hf Hl. apply Forall_fmap. eapply Forall_impl; [ exact Hl | ].
  intros x ->. exact Hf.
Qed.

Lemma row_gradient_same normalize ignore_zeros n (r : list R) :
  (∃ x, x ∈ r ∧ x + epsilon ≠ 0) →
  Forall (λ x, x = 0) (row_gradient normalize ignore_zeros n r r).
Proof.
  intros Hstab. unfold row_gradient. cbv zeta.
  rewrite row_cosine_same by assumption.
  apply Forall_zero_fmap; [ apply Ropp_0 | ].
  assert (Hd : Forall (λ x, x = 0)
                 (zip_with Rminus
                    ((λ x, x / (row_norm (stabilized r) * row_norm (stabilized r)))
                       <$> stabilized r)
                    ((λ x, 1 * x)
                       <$> ((λ x, x / row_norm (stabilized r) ^ 2) <$> stabilized r)))).
  { rewrite <- list_fmap_compose. apply zip_minus_equal.
    intros x. simpl. rewrite Rmult_1_r. ring. }
  assert (Hz : Forall (λ x, x = 0)
                 (if ignore_zeros && zero_row r
                  then (λ _, 0) <$>
                       zip_with Rminus
                         ((λ x, x / (row_norm (stabilized r) * row_norm (stabilized r)))
                            <$> stabilized r)
                         ((λ x, 1 * x)
                            <$> ((λ x, x / row_norm (stabilized r) ^ 2) <$> stabilized r))
                  else zip_with Rminus
                         ((λ x, x / (row_norm (stabilized r) * row_norm (stabilized r)))
                            <$> stabilized r)
                         ((λ x, 1 * x)
                            <$> ((λ x, x / row_norm (stabilized r) ^ 2) <$> stabilized r)))).
  { destruct (ignore_zeros && zero_row r); [ | exact Hd ].
    apply Forall_zero_fmap; [ reflexivity | exact Hd ]. }
  destruct normalize; [ | exact Hz ].
  apply Forall_zero_fmap; [ unfold Rdiv; apply Rmult_0_l | exact Hz ].
Qed.

(** X20: where a row of the guesses equals the row of the truths, and adding
    the constant does not make it the zero vector, the row of the gradient
    of [CosineDistance] is, over the real numbers with which the entries are
    modelled here, zero throughout, whatever the configuration (the floats
    of the backend leave rounding residues of the order of 1e-17). *)
Theorem cosine_gradient_of_equal_rows :
  ∀ (self : CosineDistance.t) guesses truths i r,
    shape guesses = shape truths →
    rows guesses !! i = Some r → rows truths !! i = Some r →
    (∃ x, x ∈ r ∧ x + epsilon ≠ 0) →
    ∃ grad drow,
      outcome (CosineDistance.get_grad guesses truths) self = inr grad
      ∧ rows grad !! i = Some drow
      ∧ length drow = length r
      ∧ Forall (λ x, x = 0) drow.
Proof.
  intros self guesses truths i r Hshape Hg Ht Hstab.
  rewrite Cosine_get_grad_outcome, bool_decide_eq_true_2 by assumption.
  eexists. eexists. split; [ reflexivity | ]. cbn [rows].
  rewrite lookup_zip_with, Hg, Ht. split; [ reflexivity | ]. split.
  - rewrite row_gradient_length. lia.
  - apply row_gradient_same, Hstab.
Qed.

Lemma cosine_gradient_of_equal_rows_witness :
  ∃ grad drow,
    outcome (CosineDistance.get_grad (mk_Floats2d 2 [[3; 4]; [1; 0]])
               (mk_Floats2d 2 [[3; 4]; [0; 1]]))
            (CosineDistance.__init__ true false) = inr grad
    ∧ rows grad !! 0%nat = Some drow
    ∧ Forall (λ x, x = 0) drow.
Proof.
  destruct (cosine_gradient_of_equal_rows (CosineDistance.__init__ true false)
              (mk_Floats2d 2 [[3; 4]; [1; 0]]) (mk_Floats2d 2 [[3; 4]; [0; 1]])
              0%nat [3; 4] eq_refl eq_refl eq_refl)
    as (grad & drow & Hgrad & Hrow & _ & Hzero).
  - exists 3. split; [ left | ]. pose proof epsilon_bounds. lra.
  - exists grad, drow. auto.
Defined.

From Stdlib Require Import Psatz.

Lemma cauchy_schwarz_step x y D A B :
  0 <= A → 0 <= B → D ^ 2 <= A * B →
  (x * y + D) ^ 2 <= (x ^ 2 + A) * (y ^ 2 + B).
Proof.
  intros HA HB HD.
  assert (HP : 0 <= x ^ 2 * B + y ^ 2 * A) by nra.
  assert (Hsq : (2 * x * y * D) ^ 2 <= (x ^ 2 * B + y ^ 2 * A) ^ 2).
  { assert (H1 : 0 <= (x ^ 2 * B - y ^ 2 * A) ^ 2) by apply pow2_ge_0.
    assert (H2 : 0 <= 4 * (x * y) ^ 2 * (A * B - D ^ 2)).
    { apply Rmult_le_pos; [ | lra ]. pose proof (pow2_ge_0 (x * y)). lra. }
    replace ((x ^ 2 * B + y ^ 2 * A) ^ 2)
      with ((x ^ 2 * B - y ^ 2 * A) ^ 2 + 4 * (x * y) ^ 2 * (A * B - D ^ 2)
            + (2 * x * y * D) ^ 2) by ring.
    lra. }
  assert (HQ : 2 * x * y * D <= x ^ 2 * B + y ^ 2 * A).
  { destruct (Rle_or_lt (2 * x * y * D) (x ^ 2 * B + y ^ 2 * A)) as [ | Hlt ];
      [ assumption | ].
    exfalso. assert ((x ^ 2 * B + y ^ 2 * A) ^ 2 < (2 * x * y * D) ^ 2) by nra. lra. }
  replace ((x * y + D) ^ 2) with (x ^ 2 * y ^ 2 + 2 * x * y * D + D ^ 2) by ring.
  replace ((x ^ 2 + A) * (y ^ 2 + B))
    with (x ^ 2 * y ^ 2 + (x ^ 2 * B + y ^ 2 * A) + A * B) by ring.
  lra.
Qed.

(** The inequality of Cauchy and Schwarz for [row_dot]. *)
Lemma row_dot_squared (a b : list R) :
  row_dot a b ^ 2 <= sum ((λ x, x ^ 2) <$> a) * sum ((λ x, x ^ 2) <$> b).
Proof.
  unfold row_dot. revert b. induction a as [ | x a IH ]; intros [ | y b ].
  - simpl. lra.
  - pose proof (sum_squares_nonneg (y :: b)). simpl zip_with. simpl sum at 1.
    simpl fmap at 1. simpl sum at 1. lra.
  - pose proof (sum_squares_nonneg (x :: a)). simpl zip_with. simpl sum at 1.
    simpl fmap at 2. simpl sum at 2. lra.
  - cbn [zip_with]. rewrite !fmap_cons, !sum_cons.
    apply cauchy_schwarz_step;
      [ apply sum_squares_nonneg | apply sum_squares_nonneg | apply IH ].
Qed.

(** The cosine of two rows whose norms are not zero lies between -1 and 1. *)
Lemma row_cosine_bounds (g t : list R) :
  row_norm (stabilized g) ≠ 0 → row_norm (stabilized t) ≠ 0 →
  -1 <= row_cosine g t <= 1.
Proof.
  unfold row_cosine, row_norm. intros Hg Ht.
  set (A := sum ((λ x, x ^ 2) <$> stabilized g)) in *.
  set (B := sum ((λ x, x ^ 2) <$> stabilized t)) in *.
  set (D := row_dot (stabilized g) (stabilized t)).
  assert (HD : D ^ 2 <= A * B) by apply row_dot_squared.
  assert (HA : 0 <= A) by apply sum_squares_nonneg.
  assert (HB : 0 <= B) by apply sum_squares_nonneg.
  pose proof (sqrt_pos A) as HsA. pose proof (sqrt_pos B) as HsB.
  assert (HN : 0 < sqrt A * sqrt B) by (apply Rmult_lt_0_compat; lra).
  assert (HN2 : (sqrt A * sqrt B) ^ 2 = A * B).
  { replace ((sqrt A * sqrt B) ^ 2) with ((sqrt A * sqrt A) * (sqrt B * sqrt B)) by ring.
    rewrite !sqrt_sqrt by assumption. reflexivity. }
  assert (Hbound : - (sqrt A * sqrt B) <= D <= sqrt A * sqrt B) by (split; nra).
  assert (Hinv : 0 < / (sqrt A * sqrt B)) by (apply Rinv_0_lt_compat, HN).
  assert (Hone : sqrt A * sqrt B * / (sqrt A * sqrt B) = 1) by (apply Rinv_r; lra).
  unfold Rdiv. split; nra.
Qed.

Lemma sum_bounds (b : R) (l : list R) :
  Forall (λ x, 0 <= x <= b) l → 0 <= sum l <= INR (length l) * b.
Proof.
  induction 1 as [ | x l Hx _ IH ].
  - simpl. lra.
  - rewrite sum_cons. cbn [length]. rewrite S_INR. lra.
Qed.

Lemma row_loss_bounds normalize ignore_zeros n c (t : list R) :
  -1 <= c <= 1 → (0 < n)%nat →
  0 <= row_loss normalize ignore_zeros n c t
    <= (if normalize then 2 / INR n else 2).
Proof.
  intros Hc Hn. unfold row_loss. cbv zeta.
  assert (Habs : 0 <= Rabs (c - 1) <= 2).
  { split; [ apply Rabs_pos | ]. rewrite Rabs_left1 by lra. lra. }
  assert (Hl : 0 <= (if ignore_zeros && zero_row t then 0 else Rabs (c - 1)) <= 2)
    by (destruct (ignore_zeros && zero_row t); lra).
  destruct normalize; [ | exact Hl ].
  assert (HINR : 0 < INR n) by (apply lt_0_INR, Hn).
  assert (Hinv : 0 < / INR n) by (apply Rinv_0_lt_compat, HINR).
  unfold Rdiv. split; nra.
Qed.

(** X19: for guesses and truths of one shape none of whose rows has norm zero
    once the constant is added, every cosine [get_similarity] returns lies
    between -1 and 1, and the loss lies between 0 and 2 for a kernel that
    normalizes, between 0 and twice the batch size for one that does not. *)
Theorem cosine_similarity_and_loss_bounds :
  ∀ (self : CosineDistance.t) guesses truths,
    shape guesses = shape truths →
    Forall (λ r, row_norm (stabilized r) ≠ 0) (rows guesses) →
    Forall (λ r, row_norm (stabilized r) ≠ 0) (rows truths) →
    ∃ cosine loss,
      outcome (CosineDistance.get_similarity guesses truths) self = inr cosine
      ∧ Forall (λ c, -1 <= c <= 1) cosine
      ∧ outcome (CosineDistance.get_loss guesses truths) self = inr loss
      ∧ 0 <= loss
        <= (if CosineDistance.normalize self then 2 else 2 * INR (nrows guesses)).
Proof.
  intros self guesses truths Hshape Hg Ht.
  rewrite Cosine_get_loss_outcome, Cosine_get_similarity_outcome.
  rewrite bool_decide_eq_true_2 by assumption.
  eexists. eexists. split; [ reflexivity | ].
  assert (Hcos : Forall (λ c, -1 <= c <= 1)
                   (zip_with row_cosine (rows guesses) (rows truths))).
  { apply Forall_forall. intros c Hc.
    apply list_elem_of_lookup in Hc as [i Hi].
    apply lookup_zip_with_Some in Hi as (g & t & -> & Hgi & Hti).
    apply row_cosine_bounds.
    - apply (Forall_lookup_1 _ _ _ _ Hg Hgi).
    - apply (Forall_lookup_1 _ _ _ _ Ht Hti). }
  split; [ exact Hcos | ]. split; [ reflexivity | ].
  apply shape_eq in Hshape as [Hr _]. unfold nrows in *.
  set (n := length (rows guesses)) in *.
  set (L := zip_with (row_loss (CosineDistance.normalize self)
                        (CosineDistance.ignore_zeros self) n)
              (zip_with row_cosine (rows guesses) (rows truths)) (rows truths)).
  assert (Hlen : length L = n) by (unfold L; rewrite !length_zip_with; lia).
  destruct (Nat.eq_dec n 0%nat) as [Hzero | Hpos].
  - assert (HL : L = []) by (apply nil_length_inv; lia).
    rewrite HL, Hzero. simpl. destruct (CosineDistance.normalize self); lra.
  - assert (Hentries : Forall (λ x, 0 <= x <= (if CosineDistance.normalize self
                                                then 2 / INR n else 2)) L).
    { apply Forall_forall. intros x Hx.
      apply list_elem_of_lookup in Hx as [i Hi].
      apply lookup_zip_with_Some in Hi as (c & t & -> & Hci & Hti).
      apply row_loss_bounds; [ | lia ].
      apply (Forall_lookup_1 _ _ _ _ Hcos Hci). }
    apply sum_bounds in Hentries. rewrite Hlen in Hentries.
    assert (HINR : 0 < INR n) by (apply lt_0_INR; lia).
    destruct (CosineDistance.normalize self).
    + replace (INR n * (2 / INR n)) with 2 in Hentries by (field; lra). exact Hentries.
    + rewrite Rmult_comm. exact Hentries.
Qed.

Lemma cosine_similarity_and_loss_bounds_witness :
  ∃ loss,
    outcome (CosineDistance.get_loss (mk_Floats2d 1 [[1]]) (mk_Floats2d 1 [[-1]]))
            (CosineDistance.__init__ true false) = inr loss
    ∧ 0 <= loss <= 2.
Proof.
  pose proof epsilon_bounds as He.
  destruct (cosine_similarity_and_loss_bounds (CosineDistance.__init__ true false)
              (mk_Floats2d 1 [[1]]) (mk_Floats2d 1 [[-1]]) eq_refl)
    as (cosine & loss & _ & _ & Hloss & Hbounds).
  - repeat constructor. unfold stabilized. simpl. rewrite row_norm_singleton.
    apply Rabs_no_R0. lra.
  - repeat constructor. unfold stabilized. simpl. rewrite row_norm_singleton.
    apply Rabs_no_R0. lra.
  - exists loss. split; [ exact Hloss | exact Hbounds ].
Defined.

(** ** [ignore_zeros] without zero rows *)

Lemma zip_with_ext_second {A B C} (f g : A → B → C) (l : list A) (k : list B) :
  (∀ a b, b ∈ k → f a b = g a b) → zip_with f l k = zip_with g l k.
Proof.
  revert k. induction l as [ | a l IH ]; intros [ | b k ] Hfg; try reflexivity.
  simpl. rewrite (Hfg a b) by left. f_equal. apply IH.
  intros a' b' Hb'. apply Hfg. right. exact Hb'.
Qed.

Lemma zero_row_false (r : list R) : ¬ Forall (λ x, x = 0) r → zero_row r = false.
Proof.
  intros Hr. destruct (zero_row r) eqn:Hz; [ | reflexivity ].
  apply zero_row_true in Hz. contradiction.
Qed.

(** X21: [ignore_zeros] changes nothing where there is nothing to ignore:
    when no row of the truths is the zero vector, [CosineDistance] raises or
    returns the same gradient and the same loss with the flag set as without
    it. *)
Theorem ignore_zeros_without_zero_rows :
  ∀ normalize guesses truths,
    Forall (λ r, ¬ Forall (λ x, x = 0) r) (rows truths) →
    outcome (CosineDistance.get_grad guesses truths) (CosineDistance.mk normalize true)
      = outcome (CosineDistance.get_grad guesses truths) (CosineDistance.mk normalize false)
    ∧ outcome (CosineDistance.get_loss guesses truths) (CosineDistance.mk normalize true)
      = outcome (CosineDistance.get_loss guesses truths) (CosineDistance.mk normalize false).
Proof.
  intros normalize guesses truths Hrows.
  rewrite !Cosine_get_loss_outcome, !Cosine_get_grad_outcome,
    !Cosine_get_similarity_outcome.
  case_bool_decide; [ | split; reflexivity ].
  cbn [CosineDistance.normalize CosineDistance.ignore_zeros]. split.
  - do 2 f_equal. apply zip_with_ext_second. intros g t Ht.
    unfold row_gradient. cbv zeta.
    rewrite (zero_row_false t) by (apply (proj1 (Forall_forall _ _) Hrows t Ht)).
    reflexivity.
  - do 2 f_equal. apply zip_with_ext_second. intros c t Ht.
    unfold row_loss. cbv zeta.
    rewrite (zero_row_false t) by (apply (proj1 (Forall_forall _ _) Hrows t Ht)).
    reflexivity.
Qed.

Lemma ignore_zeros_without_zero_rows_witness :
  outcome (CosineDistance.get_loss (mk_Floats2d 2 [[3; 4]]) (mk_Floats2d 2 [[0; 1]]))
          (CosineDistance.mk true true)
    = outcome (CosineDistance.get_loss (mk_Floats2d 2 [[3; 4]]) (mk_Floats2d 2 [[0; 1]]))
              (CosineDistance.mk true false).
Proof.
  apply (ignore_zeros_without_zero_rows true (mk_Floats2d 2 [[3; 4]])
           (mk_Floats2d 2 [[0; 1]])).
  repeat constructor. intros Hzero.
  apply Forall_cons in Hzero as [_ Hzero]. apply Forall_cons in Hzero as [H1 _]. lra.
Defined.

(** ** [CategoricalCrossentropy] on dense truths *)

(** X22: on dense truths of the guesses' shape and without a mask,
    [CategoricalCrossentropy] returns the gradient and the loss that
    [L2Distance] with the same [normalize] returns; on dense truths of
    another shape each raises its own [ValueError] of mismatched shapes. *)
Theorem cross_entropy_on_dense_truths_is_l2 :
  ∀ normalize names table guesses truths,
    (shape guesses = shape truths →
       outcome (CCE.get_grad guesses (TruthArray (FloatsArr truths)) None)
               (CCE.mk normalize names table)
         = outcome (L2Distance.get_grad guesses truths) (L2Distance.mk normalize)
       ∧ outcome (CCE.get_loss guesses (TruthArray (FloatsArr truths)) None)
                 (CCE.mk normalize names table)
         = outcome (L2Distance.get_loss guesses truths) (L2Distance.mk normalize))
    ∧ (shape guesses ≠ shape truths →
         outcome (CCE.get_grad guesses (TruthArray (FloatsArr truths)) None)
                 (CCE.mk normalize names table)
           = inl (ValueError (msg_cce_shapes (shape guesses) (shape truths)))
         ∧ outcome (L2Distance.get_grad guesses truths) (L2Distance.mk normalize)
           = inl (ValueError (msg_l2_shapes (shape guesses) (shape truths)))).
Proof.
  intros normalize names table guesses truths.
  rewrite CCE_get_loss_outcome, L2_get_loss_outcome.
  rewrite CCE_get_grad_outcome, CCE_convert_array, L2_get_grad_outcome.
  split; intros Hshape.
  - rewrite bool_decide_eq_true_2 by assumption. split; reflexivity.
  - rewrite bool_decide_eq_false_2 by assumption. split; reflexivity.
Qed.

Lemma cross_entropy_on_dense_truths_is_l2_witness :
  outcome (CCE.get_loss (mk_Floats2d 2 [[1; 0]]) (TruthArray (FloatsArr (mk_Floats2d 2 [[0; 1]]))) None)
          (CCE.mk true None None)
    = outcome (L2Distance.get_loss (mk_Floats2d 2 [[1; 0]]) (mk_Floats2d 2 [[0; 1]]))
              (L2Distance.mk true).
Proof.
  destruct (cross_entropy_on_dense_truths_is_l2 true None None
              (mk_Floats2d 2 [[1; 0]]) (mk_Floats2d 2 [[0; 1]])) as [Hsame _].
  apply Hsame. reflexivity.
Defined.
